(** * filestore/mongodb: a chunked object store over a document database

    A shallow embedding of [mongodb/mongodb.go].  The store keeps one
    manifest document per object in the [files] collection and one document
    per chunk in the [chunks] collection.  [Put] writes the chunks and then
    the manifest, [Get] and [FastGet] read the manifest and reassemble the
    buffer, [Delete] removes both.

    The MongoDB driver, [encoding/hex] and [crypto/md5] are libraries the
    program calls; they are modelled here by what the program relies on:
    collections are lists of documents in insertion order, [InsertOne]
    enforces the unique indexes, [FindOne] returns the first match, and any
    driver call may fail with an error taken from a schedule that is part of
    the world. *)

From Stdlib Require Import ZArith Lia List Ascii String.
From Stdlib Require Import Init.Byte Strings.Byte.
From stdpp Require Import base option list gmap strings.

Set Warnings "-register-all".
Open Scope Z_scope.

(** ** Bytes and machine integers *)

Abbreviation bytes := (list byte).

Definition byte_to_Z (b : byte) : Z := Z.of_N (Byte.to_N b).

Definition byte_of_Z (z : Z) : byte :=
  match Byte.of_N (Z.to_N (z mod 256)) with
  | Some b => b
  | None => x00
  end.

Fixpoint bytes_eqb (a b : bytes) : bool :=
  match a, b with
  | [], [] => true
  | x :: a', y :: b' => Byte.eqb x y && bytes_eqb a' b'
  | _, _ => false
  end.

(** Go's [len]: the length of a slice as an [int]. *)
Definition len {A} (l : list A) : Z := Z.of_nat (length l).

(** Go's [int] (on the 64-bit platforms the driver targets) and [int64]
    are 64-bit two's complement integers: arithmetic wraps around. *)
Definition wrap64 (z : Z) : Z := (z + 2 ^ 63) mod 2 ^ 64 - 2 ^ 63.

Definition int_add (a b : Z) : Z := wrap64 (a + b).
Definition int_sub (a b : Z) : Z := wrap64 (a - b).
Definition int_mul (a b : Z) : Z := wrap64 (a * b).

Definition fits_int32 (z : Z) : bool := (- 2 ^ 31 <=? z) && (z <? 2 ^ 31).
Definition fits_int64 (z : Z) : bool := (- 2 ^ 63 <=? z) && (z <? 2 ^ 63).

(** ** encoding/hex *)

Module Hex.

(** [hextable = "0123456789abcdef"] *)
Definition digit (n : Z) : ascii :=
  if n <? 10 then ascii_of_N (Z.to_N (48 + n))
  else ascii_of_N (Z.to_N (87 + n)).

(** [fromHexChar]: both cases of the letters are accepted. *)
Definition from_digit (c : ascii) : option Z :=
  let n := Z.of_N (N_of_ascii c) in
  if (48 <=? n) && (n <=? 57) then Some (n - 48)
  else if (97 <=? n) && (n <=? 102) then Some (n - 87)
  else if (65 <=? n) && (n <=? 70) then Some (n - 55)
  else None.

(** [hex.EncodeToString], also what [fmt.Sprintf("%x", b)] prints for a
    byte slice. *)
Fixpoint encode (src : bytes) : string :=
  match src with
  | [] => EmptyString
  | b :: rest =>
      String (digit (byte_to_Z b / 16))
        (String (digit (byte_to_Z b mod 16)) (encode rest))
  end.

Inductive decode_error :=
  | ErrLength
  | InvalidByteError (c : ascii).

(** [hex.Decode]: two characters per byte; the first character that is
    not a hexadecimal digit is reported, and an odd length is an error. *)
Fixpoint decode (s : string) : decode_error + bytes :=
  match s with
  | EmptyString => inr []
  | String _ EmptyString => inl ErrLength
  | String c1 (String c2 rest) =>
      match from_digit c1 with
      | None => inl (InvalidByteError c1)
      | Some h =>
          match from_digit c2 with
          | None => inl (InvalidByteError c2)
          | Some l =>
              match decode rest with
              | inl e => inl e
              | inr bs => inr (byte_of_Z (h * 16 + l) :: bs)
              end
          end
      end
  end.

Definition is_digit (c : ascii) : bool :=
  match from_digit c with Some _ => true | None => false end.

Fixpoint all_digits (s : string) : bool :=
  match s with
  | EmptyString => true
  | String c rest => is_digit c && all_digits rest
  end.

End Hex.

(** ** crypto/md5 (RFC 1321) *)

Module MD5.

Definition mask32 (z : Z) : Z := z mod 2 ^ 32.
Definition add32 (a b : Z) : Z := mask32 (a + b).
Definition not32 (a : Z) : Z := 2 ^ 32 - 1 - a.
Definition rotl32 (x : Z) (c : Z) : Z :=
  mask32 (Z.lor (Z.shiftl x c) (Z.shiftr x (32 - c))).

Definition shifts : list Z :=
  [7; 12; 17; 22; 7; 12; 17; 22; 7; 12; 17; 22; 7; 12; 17; 22;
   5;  9; 14; 20; 5;  9; 14; 20; 5;  9; 14; 20; 5;  9; 14; 20;
   4; 11; 16; 23; 4; 11; 16; 23; 4; 11; 16; 23; 4; 11; 16; 23;
   6; 10; 15; 21; 6; 10; 15; 21; 6; 10; 15; 21; 6; 10; 15; 21].

(** [floor (2^32 * abs (sin (i + 1)))] for [i = 0 .. 63]. *)
Definition sines : list Z :=
  [0xd76aa478; 0xe8c7b756; 0x242070db; 0xc1bdceee;
   0xf57c0faf; 0x4787c62a; 0xa8304613; 0xfd469501;
   0x698098d8; 0x8b44f7af; 0xffff5bb1; 0x895cd7be;
   0x6b901122; 0xfd987193; 0xa679438e; 0x49b40821;
   0xf61e2562; 0xc040b340; 0x265e5a51; 0xe9b6c7aa;
   0xd62f105d; 0x02441453; 0xd8a1e681; 0xe7d3fbc8;
   0x21e1cde6; 0xc33707d6; 0xf4d50d87; 0x455a14ed;
   0xa9e3e905; 0xfcefa3f8; 0x676f02d9; 0x8d2a4c8a;
   0xfffa3942; 0x8771f681; 0x6d9d6122; 0xfde5380c;
   0xa4beea44; 0x4bdecfa9; 0xf6bb4b60; 0xbebfbc70;
   0x289b7ec6; 0xeaa127fa; 0xd4ef3085; 0x04881d05;
   0xd9d4d039; 0xe6db99e5; 0x1fa27cf8; 0xc4ac5665;
   0xf4292244; 0x432aff97; 0xab9423a7; 0xfc93a039;
   0x655b59c3; 0x8f0ccc92; 0xffeff47d; 0x85845dd1;
   0x6fa87e4f; 0xfe2ce6e0; 0xa3014314; 0x4e0811a1;
   0xf7537e82; 0xbd3af235; 0x2ad7d2bb; 0xeb86d391].

Definition nthZ (l : list Z) (i : Z) : Z := nth (Z.to_nat i) l 0.

(** Little-endian 32-bit words of a block. *)
Fixpoint words (bs : bytes) : list Z :=
  match bs with
  | b0 :: b1 :: b2 :: b3 :: rest =>
      (byte_to_Z b0 + 2 ^ 8 * byte_to_Z b1 + 2 ^ 16 * byte_to_Z b2
       + 2 ^ 24 * byte_to_Z b3) :: words rest
  | _ => []
  end.

Definition word_bytes (w : Z) : bytes :=
  [byte_of_Z w; byte_of_Z (w / 2 ^ 8); byte_of_Z (w / 2 ^ 16);
   byte_of_Z (w / 2 ^ 24)].

Record state := { sa : Z; sb : Z; sc : Z; sd : Z }.

Definition init : state :=
  {| sa := 0x67452301; sb := 0xefcdab89; sc := 0x98badcfe; sd := 0x10325476 |}.

Definition round (m : list Z) (st : state) (i : Z) : state :=
  let '(Build_state a b c d) := st in
  let '(f, g) :=
    if i <? 16 then (Z.lor (Z.land b c) (Z.land (not32 b) d), i)
    else if i <? 32 then
      (Z.lor (Z.land d b) (Z.land (not32 d) c), (5 * i + 1) mod 16)
    else if i <? 48 then (Z.lxor b (Z.lxor c d), (3 * i + 5) mod 16)
    else (Z.lxor c (Z.lor b (not32 d)), (7 * i) mod 16) in
  let f' := add32 (add32 (add32 f a) (nthZ sines i)) (nthZ m g) in
  {| sa := d; sb := add32 b (rotl32 f' (nthZ shifts i)); sc := b; sd := c |}.

Definition block (st : state) (blk : bytes) : state :=
  let st' := fold_left (round (words blk)) (map Z.of_nat (seq 0 64)) st in
  {| sa := add32 (sa st) (sa st'); sb := add32 (sb st) (sb st');
     sc := add32 (sc st) (sc st'); sd := add32 (sd st) (sd st') |}.

Fixpoint blocks (n : nat) (st : state) (msg : bytes) : state :=
  match n with
  | O => st
  | S n' => blocks n' (block st (firstn 64 msg)) (skipn 64 msg)
  end.

(** The message, a byte 0x80, zeros up to 56 modulo 64, and the length in
    bits as a little-endian 64-bit integer. *)
Definition pad (msg : bytes) : bytes :=
  let l := len msg in
  let zeros := Z.to_nat ((55 - l) mod 64) in
  let bits := (8 * l) mod 2 ^ 64 in
  msg ++ x80 :: repeat x00 zeros
      ++ word_bytes (bits mod 2 ^ 32) ++ word_bytes (bits / 2 ^ 32).

Definition sum (msg : bytes) : bytes :=
  let p := pad msg in
  let st := blocks (length p / 64)%nat init p in
  word_bytes (sa st) ++ word_bytes (sb st) ++ word_bytes (sc st)
    ++ word_bytes (sd st).

End MD5.

Definition bytes_of_string (s : string) : bytes :=
  map (fun c => byte_of_Z (Z.of_N (N_of_ascii c))) (list_ascii_of_string s).

(** ** Documents *)

(** [primitive.ObjectID] is [[12]byte]; the model carries the bytes and the
    theorems ask for twelve of them where it matters. *)
Abbreviation ObjectID := (list byte).

(** BSON values, as the driver stores them and hands them back when a
    document is decoded into a [bson.M]: a 32-bit integer comes back as
    [int32], a 64-bit one as [int64], an embedded document as [bson.M],
    binary data as [primitive.Binary], null as the nil interface. *)
Inductive value :=
  | VNull
  | VInt32 (z : Z)
  | VInt64 (z : Z)
  | VString (s : string)
  | VBool (b : bool)
  | VBinary (data : bytes)
  | VObjectID (id : ObjectID)
  | VDateTime (ms : Z)
  | VDocument (d : gmap string value)
  | VArray (l : list value).

(** [bson.M] *)
Abbreviation M := (gmap string value).

(** A Go [map[string]interface{}] is either nil or a map.  The entries of a
    metadata map are carried as the BSON values the driver writes for
    them. *)
Abbreviation GoMap := (option (gmap string value)).

(** How the driver encodes the Go values the program puts in a document:
    an [int] is written as a 32-bit integer when it fits and as a 64-bit
    one otherwise, an [int64] always as a 64-bit integer, and a map as an
    embedded document unless it is nil, which is written as null. *)
Definition enc_int (z : Z) : value :=
  if fits_int32 z then VInt32 z else VInt64 z.

Definition enc_int64 (z : Z) : value := VInt64 z.

Definition enc_map (m : GoMap) : value :=
  match m with
  | None => VNull
  | Some d => VDocument d
  end.

(** The value of a field in a query or an index: a missing field counts as
    null. *)
Definition field (d : M) (k : string) : value := default VNull (d !! k).

(** Equality of two values in a query or an index.  Numbers are compared by
    value whatever their width.  The program only ever compares object ids
    and integers; documents and arrays are never equal here. *)
Definition value_eqb (a b : value) : bool :=
  match a, b with
  | VNull, VNull => true
  | VInt32 x, VInt32 y | VInt32 x, VInt64 y
  | VInt64 x, VInt32 y | VInt64 x, VInt64 y => x =? y
  | VString x, VString y => String.eqb x y
  | VBool x, VBool y => Bool.eqb x y
  | VBinary x, VBinary y => bytes_eqb x y
  | VObjectID x, VObjectID y => bytes_eqb x y
  | VDateTime x, VDateTime y => x =? y
  | _, _ => false
  end.

(** A query filter, such as [bson.M{"files_id": fileID, "n": n}]. *)
Abbreviation Filter := (list (string * value)).

Definition matches (filter : Filter) (d : M) : bool :=
  forallb (fun kv => value_eqb (snd kv) (field d (fst kv))) filter.

(** Two documents collide on a unique index over the fields [ks]. *)
Definition same_key (ks : list string) (d1 d2 : M) : bool :=
  forallb (fun k => value_eqb (field d1 k) (field d2 k)) ks.

(** ** Errors and outcomes *)

Inductive error :=
  | ErrInvalidHex                         (* primitive.ErrInvalidHex *)
  | ErrHexDecode (e : Hex.decode_error)   (* an error of hex.Decode *)
  | ErrNoDocuments                        (* mongo.ErrNoDocuments *)
  | ErrDuplicateKey                       (* a unique index rejects the write *)
  | ErrDriver (code : nat)                (* any other failure of a driver call *)
  | ErrDeleting (e : error).              (* "error deleting file: %v" *)

Inductive panic :=
  | TypeAssertion (key : string)
  | SliceBounds
  | DivideByZero
  | MakeLen.

Inductive outcome (A : Type) :=
  | Ok (a : A)
  | Err (e : error)
  | Panic (p : panic)
  | OutOfFuel.

Arguments Ok {A} a.
Arguments Err {A} e.
Arguments Panic {A} p.
Arguments OutOfFuel {A}.

(** The spec's names for the errors of a lookup. *)
Definition is_InvalidId (e : error) : bool :=
  match e with
  | ErrInvalidHex | ErrHexDecode _ => true
  | _ => false
  end.


(** ** The world: two collections and the fate of the coming driver calls *)

Inductive coll := Files | Chunks.

Record World := {
  filesColl : list M;
  chunksColl : list M;
  (** What happens to the next driver calls, in order: [None] lets the call
      through, [Some e] makes it fail with [e] and without effect.  Calls
      beyond the end of the list go through. *)
  pending : list (option error)
}.

Definition docs (c : coll) (w : World) : list M :=
  match c with
  | Files => filesColl w
  | Chunks => chunksColl w
  end.

Definition set_docs (c : coll) (ds : list M) (w : World) : World :=
  match c with
  | Files => {| filesColl := ds; chunksColl := chunksColl w; pending := pending w |}
  | Chunks => {| filesColl := filesColl w; chunksColl := ds; pending := pending w |}
  end.

Definition set_pending (fs : list (option error)) (w : World) : World :=
  {| filesColl := filesColl w; chunksColl := chunksColl w; pending := fs |}.

(** The unique indexes: [_id] on every collection, and the index on
    [(files_id, n)] that [NewFileStore] creates on the chunks. *)
Definition unique_keys (c : coll) : list (list string) :=
  match c with
  | Files => [["_id"%string]]
  | Chunks => [["_id"%string]; ["files_id"%string; "n"%string]]
  end.

(** The unique index of a collection: [_id] on the manifests, and on the
    chunks the index on [(files_id, n)] that [NewFileStore] creates.  (The
    server gives every chunk document an [_id] of its own, which never
    collides and which the program never reads; it is left out.) *)
Definition unique_key (c : coll) : list string :=
  match c with
  | Files => ["_id"%string]
  | Chunks => ["files_id"%string; "n"%string]
  end.

(** ** Programs: state, errors, panics and fuel *)

Definition Prog (A : Type) : Type := World -> outcome A * World.

#[global] Instance Prog_ret : MRet Prog := fun A a w => (Ok a, w).

#[global] Instance Prog_bind : MBind Prog := fun A B k m w =>
  match m w with
  | (Ok a, w') => k a w'
  | (Err e, w') => (Err e, w')
  | (Panic p, w') => (Panic p, w')
  | (OutOfFuel, w') => (OutOfFuel, w')
  end.

Definition lift {A} (o : outcome A) : Prog A := fun w => (o, w).

(** ** The driver *)

(** Every driver call first meets its fate. *)
Definition driver {A} (op : Prog A) : Prog A := fun w =>
  match pending w with
  | [] => op w
  | None :: fs => op (set_pending fs w)
  | Some e :: fs => (Err e, set_pending fs w)
  end.

Definition InsertOne (c : coll) (d : M) : Prog unit :=
  driver (fun w =>
    if existsb (same_key (unique_key c) d) (docs c w)
    then (Err ErrDuplicateKey, w)
    else (Ok tt, set_docs c (docs c w ++ [d]) w)).

(** [FindOne(...).Decode(&doc)]: the first matching document, or
    [mongo.ErrNoDocuments]. *)
Definition FindOne (c : coll) (filter : Filter) : Prog M :=
  driver (fun w =>
    match List.find (matches filter) (docs c w) with
    | Some d => (Ok d, w)
    | None => (Err ErrNoDocuments, w)
    end).

Fixpoint remove_first (f : M -> bool) (ds : list M) : list M :=
  match ds with
  | [] => []
  | d :: rest => if f d then rest else d :: remove_first f rest
  end.

(** The deletions return the number of documents they removed. *)
Definition DeleteOne (c : coll) (filter : Filter) : Prog Z :=
  driver (fun w =>
    let ds := docs c w in
    let ds' := remove_first (matches filter) ds in
    (Ok (len ds - len ds'), set_docs c ds' w)).

Definition DeleteMany (c : coll) (filter : Filter) : Prog Z :=
  driver (fun w =>
    let ds := docs c w in
    let ds' := List.filter (fun d => negb (matches filter d)) ds in
    (Ok (len ds - len ds'), set_docs c ds' w)).

(** [primitive.ObjectIDFromHex] *)
Definition ObjectIDFromHex (s : string) : outcome ObjectID :=
  if (String.length s =? 24)%nat then
    match Hex.decode s with
    | inl e => Err (ErrHexDecode e)
    | inr oid => Ok oid
    end
  else Err ErrInvalidHex.

(** ** Go's slices, integers and type assertions *)

(** [l[lo:hi]] *)
Definition slice {A} (l : list A) (lo hi : Z) : outcome (list A) :=
  if (0 <=? lo) && (lo <=? hi) && (hi <=? len l)
  then Ok (take (Z.to_nat (hi - lo)) (drop (Z.to_nat lo) l))
  else Panic SliceBounds.

(** [copy(dst, src)]: as many elements as fit. *)
Definition copy (dst src : bytes) : bytes :=
  take (length dst) src ++ drop (length src) dst.

(** [copy(buffer[offset:], src)], as seen on [buffer]. *)
Definition copy_at (buffer : bytes) (offset : Z) (src : bytes) : outcome bytes :=
  match slice buffer offset (len buffer) with
  | Ok dst => Ok (take (Z.to_nat offset) buffer ++ copy dst src)
  | Err e => Err e
  | Panic p => Panic p
  | OutOfFuel => OutOfFuel
  end.

(** [make([]byte, n)] panics on a negative length.  (Running out of memory
    is not modelled.) *)
Definition make_bytes (n : Z) : outcome bytes :=
  if 0 <=? n then Ok (replicate (Z.to_nat n) x00) else Panic MakeLen.

(** [make(chan chunkResult, n)] *)
Definition make_chan (n : Z) : outcome unit :=
  if 0 <=? n then Ok tt else Panic MakeLen.

(** Division of two [int64]: truncated, and a panic on a zero divisor. *)
Definition int_div (a b : Z) : outcome Z :=
  if b =? 0 then Panic DivideByZero else Ok (wrap64 (Z.quot a b)).

(** [doc[k].(int64)], [doc[k].(int32)], [doc[k].(bson.M)] and
    [doc[k].(primitive.Binary).Data]: a missing key reads as the nil
    interface, and an assertion on any other type panics. *)
Definition assert_int64 (d : M) (k : string) : outcome Z :=
  match d !! k with
  | Some (VInt64 z) => Ok z
  | _ => Panic (TypeAssertion k)
  end.

Definition assert_int32 (d : M) (k : string) : outcome Z :=
  match d !! k with
  | Some (VInt32 z) => Ok z
  | _ => Panic (TypeAssertion k)
  end.

Definition assert_M (d : M) (k : string) : outcome M :=
  match d !! k with
  | Some (VDocument m) => Ok m
  | _ => Panic (TypeAssertion k)
  end.

Definition assert_Binary (d : M) (k : string) : outcome bytes :=
  match d !! k with
  | Some (VBinary data) => Ok data
  | _ => Panic (TypeAssertion k)
  end.

(** ** The file store *)

Definition ChunkSize : Z := 8 * 1024 * 1024.

(** The chunk document and the manifest document that [Put] builds, as the
    driver writes them. *)
Definition chunkDoc (fileID : ObjectID) (chunkNumber : Z) (chunkData : bytes) : M :=
  {[ "files_id"%string := VObjectID fileID;
     "n"%string := enc_int chunkNumber;
     "data"%string := VBinary chunkData ]}.

Definition fileDoc (fileID : ObjectID) (fileSize cs uploadDate : Z)
    (md5Hash : bytes) (metadata : GoMap) : M :=
  {[ "_id"%string := VObjectID fileID;
     "length"%string := enc_int64 fileSize;
     "chunk_size"%string := enc_int cs;
     "upload_date"%string := VDateTime uploadDate;
     "md5"%string := VString (Hex.encode md5Hash);
     "metadata"%string := enc_map metadata ]}.

(** The loop of [Put]: one chunk document per window of [cs] bytes. *)
Fixpoint put_chunks (fuel : nat) (cs : Z) (fileID : ObjectID) (buffer : bytes)
    (start chunkNumber : Z) : Prog unit :=
  match fuel with
  | O => lift OutOfFuel
  | S fuel' =>
      if start <? len buffer then
        let end_ := int_add start cs in
        let end_ := if end_ >? len buffer then len buffer else end_ in
        chunkData ← lift (slice buffer start end_);
        _ ← InsertOne Chunks (chunkDoc fileID chunkNumber chunkData);
        put_chunks fuel' cs fileID buffer (int_add start cs)
          (int_add chunkNumber 1)
      else mret tt
  end.

(** [Put] with the chunk size as a parameter.  [fileID] is what
    [primitive.NewObjectID()] returned and [uploadDate] what [time.Now()]
    returned.  With a positive chunk size the loop runs at most once per
    byte, so the fuel given here is never used up. *)
Definition PutWith (cs : Z) (fileID : ObjectID) (uploadDate : Z)
    (buffer : bytes) (metadata : GoMap) : Prog string :=
  let fileSize := len buffer in
  let md5Hash := MD5.sum buffer in
  _ ← put_chunks (S (length buffer)) cs fileID buffer 0 0;
  _ ← InsertOne Files
        (fileDoc fileID fileSize cs uploadDate md5Hash metadata);
  mret (Hex.encode fileID).

Definition Put : ObjectID -> Z -> bytes -> GoMap -> Prog string :=
  PutWith ChunkSize.

(** The loop of [Get]. *)
Fixpoint get_chunks (fuel : nat) (fileID : ObjectID) (fileSize chunkSize : Z)
    (buffer : bytes) (offset : Z) : Prog bytes :=
  match fuel with
  | O => lift OutOfFuel
  | S fuel' =>
      if offset <? fileSize then
        n ← lift (int_div offset chunkSize);
        doc ← FindOne Chunks
          [("files_id"%string, VObjectID fileID); ("n"%string, VInt64 n)];
        chunkData ← lift (assert_Binary doc "data");
        buffer' ← lift (copy_at buffer offset chunkData);
        get_chunks fuel' fileID fileSize chunkSize buffer'
          (int_add offset (len chunkData))
      else mret buffer
  end.

Definition Get (fuel : nat) (fileId : string) : Prog (bytes * M) :=
  fileID ← lift (ObjectIDFromHex fileId);
  doc ← FindOne Files [("_id"%string, VObjectID fileID)];
  fileSize ← lift (assert_int64 doc "length");
  chunkSize ← lift (assert_int32 doc "chunk_size");
  metadata ← lift (assert_M doc "metadata");
  buffer ← lift (make_bytes fileSize);
  buffer' ← get_chunks fuel fileID fileSize chunkSize buffer 0;
  mret (buffer', metadata).

(** [FastGet] starts one task per chunk index and collects their results
    from a channel.  [chan] holds the indices of the tasks whose result has
    not been received yet. *)

(** The first loop of [FastGet]: [go func(chunkIndex)] for every index
    below [numChunks]. *)
Fixpoint start_fetches (fuel : nat) (numChunks i : Z) (chan : list Z)
    : outcome (list Z) :=
  match fuel with
  | O => OutOfFuel
  | S fuel' =>
      if i <? numChunks
      then start_fetches fuel' numChunks (int_add i 1) (chan ++ [i])
      else Ok chan
  end.

(** [<-chunkChan].  The results arrive in an order that the scheduler
    chooses, and [sched] holds its choices: the next number, taken modulo
    the number of outstanding results, picks the one that is received (the
    choice is 0 once [sched] is used up).  With no task left there is
    nothing to receive. *)
Definition receive (sched chan : list Z) : option (Z * list Z * list Z) :=
  let k := Z.to_nat (hd 0 sched mod len chan) in
  match chan !! k with
  | Some chunkIndex => Some (chunkIndex, tail sched, delete k chan)
  | None => None
  end.

(** The second loop of [FastGet]: [numChunks] results are received.  A
    task's fetch is accounted for when its result is received.  A receive
    with no task left blocks for ever, which is the outcome of a run that
    does not return. *)
Fixpoint collect_chunks (fuel : nat) (sched chan : list Z) (fileID : ObjectID)
    (chunkSize numChunks : Z) (buffer : bytes) (i : Z) : Prog bytes :=
  match fuel with
  | O => lift OutOfFuel
  | S fuel' =>
      if i <? numChunks then
        match receive sched chan with
        | None => lift OutOfFuel
        | Some (chunkIndex, sched', chan') =>
            doc ← FindOne Chunks
              [("files_id"%string, VObjectID fileID);
               ("n"%string, VInt64 chunkIndex)];
            chunkData ← lift (assert_Binary doc "data");
            let offset := int_mul chunkIndex chunkSize in
            buffer' ← lift (copy_at buffer offset chunkData);
            collect_chunks fuel' sched' chan' fileID chunkSize numChunks buffer'
              (int_add i 1)
        end
      else mret buffer
  end.

(** [sched] is the scheduler of the run.  Both loops run [numChunks] times
    when that is not negative, so the fuel given here is never used up. *)
Definition FastGet (sched : list Z) (fileId : string) : Prog (bytes * M) :=
  fileID ← lift (ObjectIDFromHex fileId);
  doc ← FindOne Files [("_id"%string, VObjectID fileID)];
  fileSize ← lift (assert_int64 doc "length");
  chunkSize ← lift (assert_int32 doc "chunk_size");
  metadata ← lift (assert_M doc "metadata");
  buffer ← lift (make_bytes fileSize);
  numChunks ← lift (int_div (int_sub (int_add fileSize chunkSize) 1) chunkSize);
  _ ← lift (make_chan numChunks);
  chan ← lift (start_fetches (S (Z.to_nat numChunks)) numChunks 0 []);
  buffer' ← collect_chunks (S (Z.to_nat numChunks)) sched chan fileID chunkSize
               numChunks buffer 0;
  mret (buffer', metadata).

(** [fmt.Errorf("error deleting file: %v", err)] *)
Definition deleting {A} (m : Prog A) : Prog A := fun w =>
  match m w with
  | (Err e, w') => (Err (ErrDeleting e), w')
  | r => r
  end.

Definition Delete (fileId : string) : Prog unit :=
  fileID ← lift (ObjectIDFromHex fileId);
  _ ← deleting (DeleteOne Files [("_id"%string, VObjectID fileID)]);
  _ ← deleting (DeleteMany Chunks [("files_id"%string, VObjectID fileID)]);
  mret tt.

(** A world without documents in which every driver call goes through. *)
Definition empty_world : World :=
  {| filesColl := []; chunksColl := []; pending := [] |}.

(** ** Notions used to state the properties *)

(** [ceil (L / cs)], written as [FastGet] computes it. *)
Definition num_chunks (cs L : Z) : Z := (L + cs - 1) / cs.

(** The indices [0 .. numChunks - 1]. *)
Definition indices (numChunks : Z) : list Z :=
  map Z.of_nat (seq 0 (Z.to_nat numChunks)).

(** The order in which the next [n] results are received. *)
Fixpoint arrival (n : nat) (sched chan : list Z) : list Z :=
  match n with
  | O => []
  | S n' =>
      match receive sched chan with
      | None => []
      | Some (chunkIndex, sched', chan') => chunkIndex :: arrival n' sched' chan'
      end
  end.

(** Fetching and copying the chunks of the indices of [order], one after
    the other. *)
Fixpoint collect_in_order (order : list Z) (fileID : ObjectID) (chunkSize : Z)
    (buffer : bytes) : Prog bytes :=
  match order with
  | [] => mret buffer
  | chunkIndex :: rest =>
      doc ← FindOne Chunks
        [("files_id"%string, VObjectID fileID); ("n"%string, VInt64 chunkIndex)];
      chunkData ← lift (assert_Binary doc "data");
      let offset := int_mul chunkIndex chunkSize in
      buffer' ← lift (copy_at buffer offset chunkData);
      collect_in_order rest fileID chunkSize buffer'
  end.

(** The bytes of the window number [i]. *)
Definition chunk_data (cs : Z) (buffer : bytes) (i : nat) : bytes :=
  take (Z.to_nat cs) (drop (i * Z.to_nat cs) buffer).

(** The partition of a buffer into numbered windows of [cs] bytes. *)
Definition split (cs : Z) (buffer : bytes) : list (Z * bytes) :=
  map (fun i => (Z.of_nat i, chunk_data cs buffer i))
    (seq 0 (Z.to_nat (num_chunks cs (len buffer)))).

Definition chunk_docs (cs : Z) (fileID : ObjectID) (buffer : bytes) : list M :=
  map (fun c => chunkDoc fileID (fst c) (snd c)) (split cs buffer).

(** Inserting documents one after the other, up to the first failure. *)
Fixpoint insert_docs (c : coll) (ds : list M) : Prog unit :=
  match ds with
  | [] => mret tt
  | d :: rest => _ ← InsertOne c d; insert_docs c rest
  end.

Definition by_id (fileID : ObjectID) : Filter :=
  [("_id"%string, VObjectID fileID)].

Definition by_files_id (fileID : ObjectID) : Filter :=
  [("files_id"%string, VObjectID fileID)].

Definition by_chunk (fileID : ObjectID) (n : Z) : Filter :=
  [("files_id"%string, VObjectID fileID); ("n"%string, VInt64 n)].

(** No document of the world refers to [fileID]: what is expected of a new
    object id. *)
Definition fresh (fileID : ObjectID) (w : World) : bool :=
  forallb (fun d => negb (matches (by_id fileID) d)) (filesColl w)
  && forallb (fun d => negb (matches (by_files_id fileID) d)) (chunksColl w).

(** The unique index of a collection holds. *)
Fixpoint unique_on (ks : list string) (ds : list M) : bool :=
  match ds with
  | [] => true
  | d :: rest => negb (existsb (same_key ks d) rest) && unique_on ks rest
  end.

Definition indexed (w : World) : bool :=
  unique_on (unique_key Files) (filesColl w)
  && unique_on (unique_key Chunks) (chunksColl w).

(** The identifiers the spec calls well formed: 24 hexadecimal digits. *)
Definition well_formed_id (s : string) : bool :=
  (String.length s =? 24)%nat && Hex.all_digits s.

(** The next driver call goes through. *)
Definition next_call_ok (w : World) : Prop :=
  match pending w with
  | Some _ :: _ => False
  | _ => True
  end.

(** The first [n] of the coming driver calls go through. *)
Definition through (n : nat) (fs : list (option error)) : bool :=
  forallb (fun f => match f with None => true | Some _ => false end) (take n fs).

(** No chunk of [fileID] numbered [k] or more is among [ds]. *)
Definition free_from (fileID : ObjectID) (k : Z) (ds : list M) : Prop :=
  forall j, k <= j -> existsb (matches (by_chunk fileID j)) ds = false.

(** The chunk documents of a buffer, from chunk number [k] on. *)
Definition chunk_docs_from (cs : Z) (fileID : ObjectID) (buffer : bytes)
    (k m : nat) : list M :=
  map (fun i => chunkDoc fileID (Z.of_nat i) (chunk_data cs buffer i)) (seq k m).

(** The object [buffer] with [metadata] is in the store under [fileID],
    written with chunk size [cs]: a look-up finds its manifest and each of
    its chunks. *)
Definition stored (cs : Z) (fileID : ObjectID) (buffer : bytes)
    (metadata : GoMap) (w : World) : Prop :=
  (exists doc : M,
      List.find (matches (by_id fileID)) (filesColl w) = Some doc
      /\ doc !! "length"%string = Some (VInt64 (len buffer))
      /\ doc !! "chunk_size"%string = Some (VInt32 cs)
      /\ doc !! "metadata"%string = Some (enc_map metadata)
      /\ doc !! "md5"%string = Some (VString (Hex.encode (MD5.sum buffer))))
  /\ (forall i, (i < Z.to_nat (num_chunks cs (len buffer)))%nat ->
      exists doc : M,
        List.find (matches (by_chunk fileID (Z.of_nat i))) (chunksColl w)
        = Some doc
        /\ doc !! "data"%string = Some (VBinary (chunk_data cs buffer i))).

(** The world after a [Put] whose driver calls all went through. *)
Definition after_put (cs : Z) (fileID : ObjectID) (uploadDate : Z)
    (buffer : bytes) (metadata : GoMap) (w : World) : World :=
  {| filesColl :=
       filesColl w
       ++ [fileDoc fileID (len buffer) cs uploadDate (MD5.sum buffer) metadata];
     chunksColl := chunksColl w ++ chunk_docs cs fileID buffer;
     pending :=
       drop (S (Z.to_nat (num_chunks cs (len buffer)))) (pending w) |}.

(** [dst] has the bytes of [buffer] in every window of [cs] bytes whose
    number is selected by [P]. *)
Definition agree (cs : Z) (buffer : bytes) (P : nat -> Prop) (dst : bytes) : Prop :=
  length dst = length buffer
  /\ forall i j, P i ->
       (i * Z.to_nat cs <= j < i * Z.to_nat cs + Z.to_nat cs)%nat ->
       dst !! j = buffer !! j.

(** What reading a stored object gives: the buffer and the metadata, or the
    panic of the type assertion when the metadata was stored as null. *)
Definition read_result (buffer : bytes) (metadata : GoMap) : outcome (bytes * M) :=
  match metadata with
  | Some m => Ok (buffer, m)
  | None => Panic (TypeAssertion "metadata")
  end.

(** ** Histories *)

(** A call of the interface.  A [Put] comes with what [NewObjectID] and
    [time.Now] gave it, a [Get] with its fuel and a [FastGet] with its
    scheduler. *)
Inductive call :=
  | CallPut (cs : Z) (fileID : ObjectID) (uploadDate : Z) (buffer : bytes)
      (metadata : GoMap)
  | CallGet (fuel : nat) (fileId : string)
  | CallFastGet (sched : list Z) (fileId : string)
  | CallDelete (fileId : string).

(** The world after a call, and the object ids it issued: a [Put] issues
    its id when it returns it. *)
Definition run_call (c : call) (w : World) : World * list ObjectID :=
  match c with
  | CallPut cs fileID uploadDate buffer metadata =>
      match PutWith cs fileID uploadDate buffer metadata w with
      | (Ok _, w') => (w', [fileID])
      | (_, w') => (w', [])
      end
  | CallGet fuel fileId => (snd (Get fuel fileId w), [])
  | CallFastGet sched fileId => (snd (FastGet sched fileId w), [])
  | CallDelete fileId => (snd (Delete fileId w), [])
  end.

Fixpoint run (calls : list call) (w : World) : World * list ObjectID :=
  match calls with
  | [] => (w, [])
  | c :: rest =>
      let r1 := run_call c w in
      let r2 := run rest (fst r1) in
      (fst r2, snd r1 ++ snd r2)
  end.

(** Every manifest of [ds] carries one of the object ids [ids]. *)
Definition manifests_of (ids : list ObjectID) (ds : list M) : Prop :=
  forall d, In d ds -> exists fileID, In fileID ids /\ field d "_id" = VObjectID fileID.

(** A program that leaves the documents of both collections alone. *)
Definition keeps_docs {A} (m : Prog A) : Prop :=
  forall w, filesColl (snd (m w)) = filesColl w
            /\ chunksColl (snd (m w)) = chunksColl w.

(** A program that leaves the manifests alone. *)
Definition keeps_files {A} (m : Prog A) : Prop :=
  forall w, filesColl (snd (m w)) = filesColl w.



(** How many stored chunks carry the index [n] of the object [fileID]. *)
Definition chunk_count (fileID : ObjectID) (n : Z) (w : World) : nat :=
  length (List.filter (matches (by_chunk fileID n)) (chunksColl w)).

(** The bytes that a chunk document holds. *)
Definition chunk_bytes (d : M) : bytes :=
  match d !! "data"%string with
  | Some (VBinary data) => data
  | _ => []
  end.



(** ** Opening the store *)

(** How [NewFileStore] ends: with a store, with an error returned to the
    caller, or in [log.Fatal], which ends the process. *)
Inductive started :=
  | Started
  | Refused (e : error)
  | Fatal (e : error).

(** The fate of the next driver call. *)
Definition fate (w : World) : option error * World :=
  match pending w with
  | [] => (None, w)
  | f :: fs => (f, set_pending fs w)
  end.

(** [NewFileStore]: connect, ping, and create the unique index on
    [(files_id, n)] of the chunks.  An error of the first two is returned;
    an error of the index creation, which the server also reports when the
    chunks already there break the index, goes to [log.Fatal].  The two
    collections of the world are those named [collPrefix + "files"] and
    [collPrefix + "chunks"]. *)
Definition NewFileStore (uri dbName collPrefix : string) (w : World)
    : started * World :=
  let (connect, w1) := fate w in
  match connect with
  | Some err => (Refused err, w1)
  | None =>
      let (ping, w2) := fate w1 in
      match ping with
      | Some err => (Refused err, w2)
      | None =>
          let (index, w3) := fate w2 in
          match index with
          | Some err => (Fatal err, w3)
          | None =>
              if unique_on (unique_key Chunks) (chunksColl w3)
              then (Started, w3)
              else (Fatal ErrDuplicateKey, w3)
          end
      end
  end.


(** ** Sample data *)

Definition sample_id : ObjectID :=
  [x65; xa1; xb2; xc3; xd4; xe5; xf6; x07; x18; x29; x3a; x4b].

Definition sample_hex : string := "65a1b2c3d4e5f60718293a4b".

Definition sample_buffer : bytes := bytes_of_string "hello world!".

Definition sample_metadata : gmap string value :=
  {[ "filename"%string := VString "hello.txt" ]}.

Definition other_id : ObjectID :=
  [x75; xa1; xb2; xc3; xd4; xe5; xf6; x07; x18; x29; x3a; x4b].

Definition other_hex : string := "75a1b2c3d4e5f60718293a4b".

(** The world after storing the sample buffer in chunks of five bytes. *)
Definition sample_world : World :=
  snd (PutWith 5 sample_id 0 sample_buffer (Some sample_metadata) empty_world).


(** A store in which chunk 0 of an object of two bytes, written in chunks
    of one byte, holds both bytes and chunk 1
    is missing. *)
Definition gap_world : World :=
  {| filesColl := [fileDoc sample_id 2 1 0 [] (Some sample_metadata)];
     chunksColl := [chunkDoc sample_id 0 [x61; x62]];
     pending := [] |}.


(** * Properties *)

(** ** Machine integers *)

Lemma wrap64_small z : - 2 ^ 63 <= z < 2 ^ 63 -> wrap64 z = z.
Proof.
  intros Hz. unfold wrap64.
  rewrite Z.mod_small by lia. lia.
Qed.

Lemma int_add_small a b : - 2 ^ 63 <= a + b < 2 ^ 63 -> int_add a b = a + b.
Proof. apply wrap64_small. Qed.

Lemma int_sub_small a b : - 2 ^ 63 <= a - b < 2 ^ 63 -> int_sub a b = a - b.
Proof. apply wrap64_small. Qed.

Lemma int_mul_small a b : - 2 ^ 63 <= a * b < 2 ^ 63 -> int_mul a b = a * b.
Proof. apply wrap64_small. Qed.


Lemma len_nonneg {A} (l : list A) : 0 <= len l.
Proof. unfold len. lia. Qed.

Lemma len_app {A} (l k : list A) : len (l ++ k) = len l + len k.
Proof. unfold len. rewrite length_app. lia. Qed.

Lemma ChunkSize_eq : ChunkSize = 8388608.
Proof. reflexivity. Qed.

Lemma enc_int_small z : - 2 ^ 31 <= z < 2 ^ 31 -> enc_int z = VInt32 z.
Proof.
  intros Hz. unfold enc_int, fits_int32.
  destruct (Z.leb_spec (- 2 ^ 31) z); [|lia].
  destruct (Z.ltb_spec z (2 ^ 31)); [reflexivity|lia].
Qed.

(** ** Hexadecimal strings *)

Lemma byte_digits b :
  Hex.from_digit (Hex.digit (byte_to_Z b / 16)) = Some (byte_to_Z b / 16)
  /\ Hex.from_digit (Hex.digit (byte_to_Z b mod 16)) = Some (byte_to_Z b mod 16)
  /\ byte_of_Z (byte_to_Z b / 16 * 16 + byte_to_Z b mod 16) = b.
Proof. destruct b; vm_compute; auto. Qed.

Lemma decode_encode (l : bytes) : Hex.decode (Hex.encode l) = inr l.
Proof.
  induction l as [|b l IH]; [reflexivity|].
  destruct (byte_digits b) as (Hh & Hl & Hb).
  cbn [Hex.encode Hex.decode]. rewrite Hh, Hl, IH, Hb. reflexivity.
Qed.

Lemma length_encode (l : bytes) :
  String.length (Hex.encode l) = (2 * length l)%nat.
Proof. induction l as [|b l IH]; simpl; [reflexivity|]. rewrite IH. lia. Qed.

Lemma string_pair_ind (P : string -> Prop) :
  P EmptyString ->
  (forall c, P (String c EmptyString)) ->
  (forall c1 c2 s, P s -> P (String c1 (String c2 s))) ->
  forall s, P s.
Proof.
  intros H0 H1 H2 s.
  enough (P s /\ forall c, P (String c s)) as [Hs _] by exact Hs.
  induction s as [|c s [IHs IHc]]; split; auto.
Qed.

Lemma length_decode s (l : bytes) :
  Hex.decode s = inr l -> String.length s = (2 * length l)%nat.
Proof.
  revert l. induction s as [|c|c1 c2 s IH] using string_pair_ind; intros l.
  - intros [= <-]. reflexivity.
  - discriminate.
  - cbn [Hex.decode].
    destruct (Hex.from_digit c1); [|discriminate].
    destruct (Hex.from_digit c2); [|discriminate].
    destruct (Hex.decode s) as [e|l'] eqn:Hd; [discriminate|].
    intros [= <-]. simpl. rewrite (IH l' eq_refl). lia.
Qed.

Lemma decode_all_digits s :
  Nat.even (String.length s) = true ->
  Hex.all_digits s = true <-> exists l, Hex.decode s = inr l.
Proof.
  induction s as [|c|c1 c2 s IH] using string_pair_ind; intros Hev.
  - split; [eexists; reflexivity|reflexivity].
  - discriminate.
  - cbn [Hex.decode Hex.all_digits]. unfold Hex.is_digit.
    simpl in Hev. specialize (IH Hev).
    destruct (Hex.from_digit c1); cbn [andb].
    2:{ split; [discriminate|intros [l [=]]]. }
    destruct (Hex.from_digit c2); cbn [andb].
    2:{ split; [discriminate|intros [l [=]]]. }
    rewrite IH. destruct (Hex.decode s) as [e|l'].
    + split; intros [l [=]].
    + split; eauto.
Qed.

Lemma ObjectIDFromHex_Hex (fileID : ObjectID) :
  length fileID = 12%nat -> ObjectIDFromHex (Hex.encode fileID) = Ok fileID.
Proof.
  intros Hl. unfold ObjectIDFromHex.
  rewrite length_encode, Hl, decode_encode. reflexivity.
Qed.

Lemma ObjectIDFromHex_well_formed s :
  well_formed_id s = true <-> exists fileID, ObjectIDFromHex s = Ok fileID.
Proof.
  unfold well_formed_id, ObjectIDFromHex.
  destruct (Nat.eqb_spec (String.length s) 24) as [H24|H24]; cbn [andb].
  - rewrite decode_all_digits by (rewrite H24; reflexivity).
    split; intros [l Hl].
    + rewrite Hl. eauto.
    + destruct (Hex.decode s); [discriminate|eauto].
  - split; [discriminate|intros [l [=]]].
Qed.

Lemma ObjectIDFromHex_length s (fileID : ObjectID) :
  ObjectIDFromHex s = Ok fileID -> length fileID = 12%nat.
Proof.
  unfold ObjectIDFromHex.
  destruct (Nat.eqb_spec (String.length s) 24) as [H24|H24]; [|discriminate].
  destruct (Hex.decode s) as [e|l] eqn:Hd; [discriminate|].
  intros [= <-]. apply length_decode in Hd. lia.
Qed.

Lemma ObjectIDFromHex_malformed s :
  well_formed_id s = false ->
  exists e, ObjectIDFromHex s = Err e /\ is_InvalidId e = true.
Proof.
  intros Hwf.
  destruct (ObjectIDFromHex s) as [oid|e|p|] eqn:Ho.
  - assert (well_formed_id s = true) by (apply ObjectIDFromHex_well_formed; eauto).
    congruence.
  - exists e. split; [reflexivity|].
    unfold ObjectIDFromHex in Ho.
    destruct (String.length s =? 24)%nat; [|by inversion Ho].
    destruct (Hex.decode s); by inversion Ho.
  - unfold ObjectIDFromHex in Ho.
    destruct (String.length s =? 24)%nat; [|discriminate].
    destruct (Hex.decode s); discriminate.
  - unfold ObjectIDFromHex in Ho.
    destruct (String.length s =? 24)%nat; [|discriminate].
    destruct (Hex.decode s); discriminate.
Qed.

(** ** Worlds *)

Lemma docs_set_docs c ds w : docs c (set_docs c ds w) = ds.
Proof. destruct c; reflexivity. Qed.

Lemma docs_set_pending c fs w : docs c (set_pending fs w) = docs c w.
Proof. destruct c; reflexivity. Qed.

Lemma pending_set_docs c ds w : pending (set_docs c ds w) = pending w.
Proof. destruct c; reflexivity. Qed.

Lemma set_docs_set_docs c ds ds' w :
  set_docs c ds (set_docs c ds' w) = set_docs c ds w.
Proof. destruct c; reflexivity. Qed.

Lemma set_docs_set_pending c ds fs w :
  set_docs c ds (set_pending fs w) = set_pending fs (set_docs c ds w).
Proof. destruct c; reflexivity. Qed.

Lemma set_pending_set_pending fs fs' w :
  set_pending fs (set_pending fs' w) = set_pending fs w.
Proof. reflexivity. Qed.

Lemma set_pending_same w : set_pending (pending w) w = w.
Proof. destruct w; reflexivity. Qed.

Lemma set_docs_same c w : set_docs c (docs c w) w = w.
Proof. destruct c, w; reflexivity. Qed.

Lemma set_chunks_same w : set_docs Chunks (chunksColl w) w = w.
Proof. destruct w; reflexivity. Qed.

Lemma set_files_same w : set_docs Files (filesColl w) w = w.
Proof. destruct w; reflexivity. Qed.

Lemma filesColl_set_chunks ds w : filesColl (set_docs Chunks ds w) = filesColl w.
Proof. reflexivity. Qed.

Lemma chunksColl_set_files ds w : chunksColl (set_docs Files ds w) = chunksColl w.
Proof. reflexivity. Qed.

(** ** Programs *)

Lemma bind_ok {A B} (m : Prog A) (k : A -> Prog B) w a w' :
  m w = (Ok a, w') -> (m ≫= k) w = k a w'.
Proof. intros H. unfold mbind, Prog_bind. rewrite H. reflexivity. Qed.

Lemma bind_err {A B} (m : Prog A) (k : A -> Prog B) w e w' :
  m w = (Err e, w') -> (m ≫= k) w = (Err e, w').
Proof. intros H. unfold mbind, Prog_bind. rewrite H. reflexivity. Qed.

Lemma bind_panic {A B} (m : Prog A) (k : A -> Prog B) w p w' :
  m w = (Panic p, w') -> (m ≫= k) w = (Panic p, w').
Proof. intros H. unfold mbind, Prog_bind. rewrite H. reflexivity. Qed.

Lemma bind_out_of_fuel {A B} (m : Prog A) (k : A -> Prog B) w w' :
  m w = (OutOfFuel, w') -> (m ≫= k) w = (OutOfFuel, w').
Proof. intros H. unfold mbind, Prog_bind. rewrite H. reflexivity. Qed.

Lemma bind_lift_ok {A B} (a : A) (k : A -> Prog B) w :
  (lift (Ok a) ≫= k) w = k a w.
Proof. reflexivity. Qed.

(** A driver call either fails by its fate or runs on the world with its
    fate consumed. *)
Lemma driver_quiet {A} (op : Prog A) w : pending w = [] -> driver op w = op w.
Proof. intros H. unfold driver. rewrite H. reflexivity. Qed.

Lemma driver_through {A} (op : Prog A) w :
  next_call_ok w -> driver op w = op (set_pending (tail (pending w)) w).
Proof.
  unfold next_call_ok, driver. destruct (pending w) as [|[e|] fs] eqn:Hp.
  - intros _. cbn [tail]. rewrite <- Hp, set_pending_same. reflexivity.
  - intros [].
  - reflexivity.
Qed.

Lemma driver_fails {A} (op : Prog A) w e fs :
  pending w = Some e :: fs -> driver op w = (Err e, set_pending fs w).
Proof. intros H. unfold driver. rewrite H. reflexivity. Qed.

(** ** Matching documents *)

Lemma bytes_eqb_eq (a b : bytes) : bytes_eqb a b = true <-> a = b.
Proof.
  revert b. induction a as [|x a IH]; intros [|y b]; simpl; try (split; congruence).
  rewrite andb_true_iff, IH. split.
  - intros [Hxy ->]. apply Byte.byte_dec_bl in Hxy. congruence.
  - intros [= -> ->]. split; [apply Byte.byte_dec_lb|]; reflexivity.
Qed.

Lemma bytes_eqb_refl (a : bytes) : bytes_eqb a a = true.
Proof. by apply bytes_eqb_eq. Qed.


Lemma value_eqb_enc_int n v : value_eqb (enc_int n) v = value_eqb (VInt64 n) v.
Proof. unfold enc_int. destruct (fits_int32 n); reflexivity. Qed.

Lemma value_eqb_int64_enc_int n m : value_eqb (VInt64 n) (enc_int m) = (n =? m).
Proof. unfold enc_int. destruct (fits_int32 m); reflexivity. Qed.

Lemma matches_by_id_fileDoc fileID fileID' fileSize cs uploadDate md5Hash metadata :
  matches (by_id fileID)
    (fileDoc fileID' fileSize cs uploadDate md5Hash metadata)
  = bytes_eqb fileID fileID'.
Proof. unfold matches, by_id. cbn. apply andb_true_r. Qed.

Lemma matches_by_chunk_chunkDoc fileID n fileID' n' data :
  matches (by_chunk fileID n) (chunkDoc fileID' n' data)
  = bytes_eqb fileID fileID' && (n =? n').
Proof.
  unfold matches, by_chunk. cbn [forallb fst snd].
  replace (field (chunkDoc fileID' n' data) "files_id") with (VObjectID fileID')
    by reflexivity.
  replace (field (chunkDoc fileID' n' data) "n") with (enc_int n')
    by reflexivity.
  rewrite value_eqb_int64_enc_int, andb_true_r. reflexivity.
Qed.

Lemma matches_by_files_id_chunkDoc fileID fileID' n' data :
  matches (by_files_id fileID) (chunkDoc fileID' n' data)
  = bytes_eqb fileID fileID'.
Proof. unfold matches, by_files_id. cbn. apply andb_true_r. Qed.

Lemma matches_by_chunk_files_id fileID n d :
  matches (by_chunk fileID n) d = true -> matches (by_files_id fileID) d = true.
Proof.
  unfold matches, by_chunk, by_files_id. cbn [forallb fst snd].
  rewrite !andb_true_iff. tauto.
Qed.

Lemma same_key_chunkDoc fileID n data d :
  same_key (unique_key Chunks) (chunkDoc fileID n data) d
  = matches (by_chunk fileID n) d.
Proof.
  unfold same_key, matches, by_chunk, unique_key. cbn [forallb fst snd].
  replace (field (chunkDoc fileID n data) "files_id") with (VObjectID fileID)
    by reflexivity.
  replace (field (chunkDoc fileID n data) "n") with (enc_int n) by reflexivity.
  rewrite value_eqb_enc_int. reflexivity.
Qed.

Lemma same_key_fileDoc fileID fileSize cs uploadDate md5Hash metadata d :
  same_key (unique_key Files)
    (fileDoc fileID fileSize cs uploadDate md5Hash metadata) d
  = matches (by_id fileID) d.
Proof. reflexivity. Qed.

(** ** Searching a collection *)

Lemma find_app_None {A} (f : A -> bool) l1 l2 :
  List.find f l1 = None -> List.find f (l1 ++ l2) = List.find f l2.
Proof.
  induction l1 as [|x l1 IH]; simpl; [reflexivity|].
  destruct (f x); [discriminate|exact IH].
Qed.

Lemma find_app_Some {A} (f : A -> bool) l1 l2 x :
  List.find f l1 = Some x -> List.find f (l1 ++ l2) = Some x.
Proof.
  induction l1 as [|y l1 IH]; simpl; [discriminate|].
  destruct (f y); [congruence|exact IH].
Qed.

Lemma find_existsb_false {A} (f : A -> bool) l :
  existsb f l = false -> List.find f l = None.
Proof.
  induction l as [|x l IH]; simpl; [reflexivity|].
  destruct (f x); [discriminate|exact IH].
Qed.

Lemma find_None_existsb {A} (f : A -> bool) l :
  List.find f l = None -> existsb f l = false.
Proof.
  induction l as [|x l IH]; simpl; [reflexivity|].
  destruct (f x); [discriminate|exact IH].
Qed.

Lemma existsb_forallb_negb {A} (f : A -> bool) l :
  forallb (fun x => negb (f x)) l = true -> existsb f l = false.
Proof.
  induction l as [|x l IH]; simpl; [reflexivity|].
  destruct (f x); simpl; [discriminate|exact IH].
Qed.

Lemma existsb_false_weaken {A} (f g : A -> bool) l :
  (forall x, g x = true -> f x = true) ->
  existsb f l = false -> existsb g l = false.
Proof.
  intros Hfg. induction l as [|x l IH]; simpl; [reflexivity|].
  destruct (f x) eqn:Ef; [discriminate|]. intros Hl.
  destruct (g x) eqn:Eg; [apply Hfg in Eg; congruence|]. apply IH, Hl.
Qed.

Lemma existsb_pointwise {A} (f g : A -> bool) l :
  (forall x, f x = g x) -> existsb f l = existsb g l.
Proof.
  intros Hfg. induction l as [|x l IH]; simpl; [reflexivity|].
  by rewrite Hfg, IH.
Qed.

Lemma find_map_seq {A} (f : A -> bool) (g : nat -> A) (i k m : nat) :
  (forall j, f (g j) = Nat.eqb j i) ->
  (k <= i < k + m)%nat ->
  List.find f (map g (seq k m)) = Some (g i).
Proof.
  intros Hf. revert k. induction m as [|m IH]; intros k Hi; [lia|].
  cbn [seq map List.find]. rewrite Hf.
  destruct (Nat.eqb_spec k i) as [->|Hne]; [reflexivity|].
  apply IH. lia.
Qed.

(** A fresh object id has no manifest and no chunk. *)
Lemma fresh_files fileID w :
  fresh fileID w = true ->
  existsb (matches (by_id fileID)) (filesColl w) = false.
Proof.
  unfold fresh. rewrite andb_true_iff. intros [H _].
  by apply existsb_forallb_negb.
Qed.

Lemma fresh_chunks fileID w :
  fresh fileID w = true ->
  existsb (matches (by_files_id fileID)) (chunksColl w) = false.
Proof.
  unfold fresh. rewrite andb_true_iff. intros [_ H].
  by apply existsb_forallb_negb.
Qed.

Lemma fresh_free_from fileID w k :
  fresh fileID w = true -> free_from fileID k (chunksColl w).
Proof.
  intros Hf j _. eapply existsb_false_weaken; [|apply fresh_chunks, Hf].
  apply matches_by_chunk_files_id.
Qed.

(** ** The fate of the driver calls *)

Lemma through_nil n : through n [] = true.
Proof. unfold through. by rewrite take_nil. Qed.

Lemma through_S n fs :
  through (S n) fs = true ->
  match fs with Some _ :: _ => False | _ => True end
  /\ through n (tail fs) = true.
Proof.
  unfold through. destruct fs as [|[e|] fs]; cbn [take tail forallb andb].
  - rewrite take_nil. auto.
  - discriminate.
  - auto.
Qed.

Lemma through_next n w : through (S n) (pending w) = true -> next_call_ok w.
Proof. intros H. destruct (through_S _ _ H) as [H' _]. exact H'. Qed.

Lemma drop_tail {A} (l : list A) n : drop n (tail l) = drop (S n) l.
Proof. destruct l; [cbn [tail]; by rewrite !drop_nil|reflexivity]. Qed.

Lemma tail_drop {A} (l : list A) n : tail (drop n l) = drop (S n) l.
Proof.
  revert l. induction n as [|n IH]; intros [|x l]; try reflexivity.
  cbn [skipn]. rewrite <- IH. reflexivity.
Qed.

(** ** Inserting the chunk documents *)

Section insert_chunks.
Variables (cs : Z) (fileID : ObjectID) (buffer : bytes).

Let doc (i : nat) : M := chunkDoc fileID (Z.of_nat i) (chunk_data cs buffer i).

Lemma InsertOne_chunk_through k w :
  next_call_ok w ->
  free_from fileID (Z.of_nat k) (chunksColl w) ->
  InsertOne Chunks (doc k) w
  = (Ok tt, set_docs Chunks (chunksColl w ++ [doc k])
              (set_pending (tail (pending w)) w)).
Proof.
  intros Hn Hfree. unfold InsertOne. rewrite driver_through by exact Hn.
  rewrite docs_set_pending. cbn [docs].
  replace (existsb _ (chunksColl w)) with false; [reflexivity|].
  symmetry. rewrite <- (Hfree (Z.of_nat k)) by lia.
  apply existsb_pointwise. intros d. apply same_key_chunkDoc.
Qed.

Lemma free_from_snoc k ds :
  free_from fileID (Z.of_nat k) ds ->
  free_from fileID (Z.of_nat (S k)) (ds ++ [doc k]).
Proof.
  intros Hfree j Hj. rewrite existsb_app, Hfree by lia.
  cbn [existsb orb]. unfold doc. rewrite matches_by_chunk_chunkDoc.
  rewrite orb_false_r, andb_false_iff. right. lia.
Qed.

Lemma insert_chunk_docs_through m : forall k w,
  through m (pending w) = true ->
  free_from fileID (Z.of_nat k) (chunksColl w) ->
  insert_docs Chunks (chunk_docs_from cs fileID buffer k m) w
  = (Ok tt, set_docs Chunks
              (chunksColl w ++ chunk_docs_from cs fileID buffer k m)
              (set_pending (drop m (pending w)) w)).
Proof.
  induction m as [|m IH]; intros k w Hthr Hfree.
  - unfold chunk_docs_from. cbn [seq map insert_docs].
    by rewrite app_nil_r, drop_0, set_pending_same, set_chunks_same.
  - pose proof (through_S _ _ Hthr) as [Hn Hthr'].
    unfold chunk_docs_from. cbn [seq map insert_docs].
    erewrite bind_ok; [|apply InsertOne_chunk_through; [exact Hn|exact Hfree]].
    fold (chunk_docs_from cs fileID buffer (S k) m).
    rewrite IH.
    + rewrite pending_set_docs. cbn [pending set_pending].
      rewrite drop_tail. f_equal.
      rewrite set_docs_set_pending, set_docs_set_docs.
      cbn [set_docs set_pending chunksColl filesColl pending].
      by rewrite <- app_assoc.
    + rewrite pending_set_docs. exact Hthr'.
    + apply free_from_snoc, Hfree.
Qed.

Lemma insert_chunk_docs_fails m : forall j k w e,
  (j < m)%nat ->
  through j (pending w) = true ->
  pending w !! j = Some (Some e) ->
  free_from fileID (Z.of_nat k) (chunksColl w) ->
  insert_docs Chunks (chunk_docs_from cs fileID buffer k m) w
  = (Err e, set_docs Chunks
              (chunksColl w ++ chunk_docs_from cs fileID buffer k j)
              (set_pending (drop (S j) (pending w)) w)).
Proof.
  induction m as [|m IH]; intros j k w e Hj Hthr He Hfree; [lia|].
  unfold chunk_docs_from. cbn [seq map insert_docs].
  destruct j as [|j].
  - destruct (pending w) as [|f fs] eqn:Hp; [discriminate|].
    cbn in He. injection He as ->.
    erewrite bind_err; [|unfold InsertOne; apply driver_fails, Hp].
    cbn [seq map skipn]. rewrite app_nil_r.
    rewrite set_docs_set_pending. by rewrite set_chunks_same.
  - pose proof (through_S _ _ Hthr) as [Hn Hthr'].
    erewrite bind_ok; [|apply InsertOne_chunk_through; [exact Hn|exact Hfree]].
    fold (chunk_docs_from cs fileID buffer (S k) m).
    rewrite (IH j (S k) _ e).
    + rewrite pending_set_docs. cbn [pending set_pending].
      rewrite drop_tail. f_equal.
      rewrite set_docs_set_pending, set_docs_set_docs.
      cbn [set_docs set_pending chunksColl filesColl pending seq map].
      by rewrite <- app_assoc.
    + lia.
    + rewrite pending_set_docs. exact Hthr'.
    + rewrite pending_set_docs. cbn [pending set_pending].
      destruct (pending w); [discriminate|exact He].
    + apply free_from_snoc, Hfree.
Qed.

End insert_chunks.

(** ** The loop of Put writes the partition of the buffer *)

Lemma num_chunks_lt cs L k :
  0 < cs -> 0 <= L -> 0 <= k -> (k < num_chunks cs L <-> k * cs < L).
Proof.
  intros Hcs HL Hk. unfold num_chunks. split; intros H.
  - pose proof (Z.mul_div_le (L + cs - 1) cs Hcs). nia.
  - assert (k + 1 <= (L + cs - 1) / cs); [|lia].
    apply Z.div_le_lower_bound; [exact Hcs|nia].
Qed.

Lemma num_chunks_nonneg cs L : 0 < cs -> 0 <= L -> 0 <= num_chunks cs L.
Proof.
  intros Hcs HL. unfold num_chunks. apply Z.div_pos; lia.
Qed.

Lemma num_chunks_le cs L : 0 < cs -> 0 <= L -> num_chunks cs L <= L.
Proof.
  intros Hcs HL.
  destruct (Z.le_gt_cases (num_chunks cs L) L) as [|Hgt]; [assumption|].
  apply (num_chunks_lt cs L L Hcs HL HL) in Hgt. nia.
Qed.

Lemma length_chunk_data cs (buffer : bytes) i :
  0 < cs ->
  len (chunk_data cs buffer i)
  = Z.min cs (Z.max 0 (len buffer - Z.of_nat i * cs)).
Proof.
  intros Hcs. unfold chunk_data, len.
  rewrite length_take, length_drop. nia.
Qed.

Lemma slice_chunk_data cs (buffer : bytes) (k : nat) :
  0 < cs -> Z.of_nat k * cs < len buffer ->
  slice buffer (Z.of_nat k * cs)
    (if Z.of_nat k * cs + cs >? len buffer then len buffer
     else Z.of_nat k * cs + cs)
  = Ok (chunk_data cs buffer k).
Proof.
  intros Hcs Hk. unfold slice, chunk_data.
  assert (Hto : Z.to_nat (Z.of_nat k * cs) = (k * Z.to_nat cs)%nat)
    by (rewrite Z2Nat.inj_mul, Nat2Z.id by lia; reflexivity).
  destruct (Z.gtb_spec (Z.of_nat k * cs + cs) (len buffer)) as [Hgt|Hle].
  - rewrite Z.leb_refl, andb_true_r.
    destruct (Z.leb_spec 0 (Z.of_nat k * cs)); [|lia].
    destruct (Z.leb_spec (Z.of_nat k * cs) (len buffer)); [|lia].
    cbn [andb]. rewrite Hto. f_equal.
    rewrite !take_ge; [reflexivity| |]; rewrite length_drop; unfold len in *; nia.
  - destruct (Z.leb_spec 0 (Z.of_nat k * cs)); [|lia].
    destruct (Z.leb_spec (Z.of_nat k * cs) (Z.of_nat k * cs + cs)); [|lia].
    destruct (Z.leb_spec (Z.of_nat k * cs + cs) (len buffer)); [|lia].
    cbn [andb]. rewrite Hto. do 2 f_equal. lia.
Qed.

Lemma put_chunks_insert_docs cs fileID (buffer : bytes) :
  0 < cs -> len buffer + cs < 2 ^ 63 ->
  forall fuel k w,
    (k <= Z.to_nat (num_chunks cs (len buffer)))%nat ->
    (Z.to_nat (num_chunks cs (len buffer)) - k < fuel)%nat ->
    put_chunks fuel cs fileID buffer (Z.of_nat k * cs) (Z.of_nat k) w
    = insert_docs Chunks
        (chunk_docs_from cs fileID buffer k
           (Z.to_nat (num_chunks cs (len buffer)) - k)) w.
Proof.
  intros Hcs Hov. pose proof (len_nonneg buffer) as HL.
  pose proof (num_chunks_nonneg cs _ Hcs HL) as HN.
  induction fuel as [|fuel IH]; intros k w Hk Hfuel; [lia|].
  cbn [put_chunks].
  pose proof (num_chunks_lt cs (len buffer) (Z.of_nat k) Hcs HL ltac:(lia)) as Hlt.
  destruct (Z.ltb_spec (Z.of_nat k * cs) (len buffer)) as [Hin|Hout].
  - assert (Hk' : (S k <= Z.to_nat (num_chunks cs (len buffer)))%nat) by lia.
    rewrite int_add_small by lia.
    rewrite slice_chunk_data by assumption. rewrite bind_lift_ok.
    replace (Z.to_nat (num_chunks cs (len buffer)) - k)%nat
      with (S (Z.to_nat (num_chunks cs (len buffer)) - S k)) by lia.
    unfold chunk_docs_from. cbn [seq map insert_docs].
    fold (chunk_docs_from cs fileID buffer (S k)
            (Z.to_nat (num_chunks cs (len buffer)) - S k)).
    rewrite int_add_small by (pose proof (num_chunks_le cs _ Hcs HL); lia).
    replace (Z.of_nat k * cs + cs) with (Z.of_nat (S k) * cs) by lia.
    replace (Z.of_nat k + 1) with (Z.of_nat (S k)) by lia.
    unfold mbind, Prog_bind.
    destruct (InsertOne Chunks _ w) as [[[]|e|p|] w']; try reflexivity.
    apply IH; lia.
  - replace (Z.to_nat (num_chunks cs (len buffer)) - k)%nat with 0%nat by lia.
    reflexivity.
Qed.

(** The loop of [Put], from the start, inserts the chunk documents of the
    partition one after the other. *)
Lemma put_chunks_split cs fileID (buffer : bytes) w :
  0 < cs -> len buffer + cs < 2 ^ 63 ->
  put_chunks (S (length buffer)) cs fileID buffer 0 0 w
  = insert_docs Chunks (chunk_docs cs fileID buffer) w.
Proof.
  intros Hcs Hov. pose proof (len_nonneg buffer) as HL.
  pose proof (num_chunks_le cs _ Hcs HL) as HNL.
  pose proof (num_chunks_nonneg cs _ Hcs HL) as HN.
  transitivity (put_chunks (S (length buffer)) cs fileID buffer
                  (Z.of_nat 0 * cs) (Z.of_nat 0) w); [reflexivity|].
  rewrite put_chunks_insert_docs; try assumption; [|lia|unfold len in *; lia].
  rewrite Nat.sub_0_r. unfold chunk_docs, split, chunk_docs_from.
  by rewrite map_map.
Qed.

(** ** Put *)

Lemma through_le n m fs : (n <= m)%nat -> through m fs = true -> through n fs = true.
Proof.
  unfold through. intros Hnm H.
  rewrite forallb_forall in *. intros f Hf. apply H.
  apply list_elem_of_In in Hf. apply list_elem_of_In.
  apply list_elem_of_lookup in Hf as [i Hi]. apply list_elem_of_lookup. exists i.
  apply lookup_take_Some in Hi as [Hi Hlt]. apply lookup_take_Some. split; [exact Hi|lia].
Qed.

Lemma through_drop n m fs :
  through (n + m) fs = true -> through m (drop n fs) = true.
Proof.
  revert fs. induction n as [|n IH]; intros fs H; [by rewrite drop_0|].
  destruct (through_S _ _ H) as [_ H'].
  rewrite <- drop_tail. apply IH, H'.
Qed.

Lemma chunk_docs_from_0 cs fileID (buffer : bytes) :
  chunk_docs cs fileID buffer
  = chunk_docs_from cs fileID buffer 0 (Z.to_nat (num_chunks cs (len buffer))).
Proof. unfold chunk_docs, split, chunk_docs_from. by rewrite map_map. Qed.

Lemma length_chunk_docs_from cs fileID (buffer : bytes) k m :
  length (chunk_docs_from cs fileID buffer k m) = m.
Proof. unfold chunk_docs_from. by rewrite length_map, length_seq. Qed.

Lemma chunk_docs_from_take cs fileID (buffer : bytes) k m j :
  (j <= m)%nat ->
  chunk_docs_from cs fileID buffer k j
  = take j (chunk_docs_from cs fileID buffer k m).
Proof.
  intros Hj. unfold chunk_docs_from.
  rewrite firstn_map, take_seq. by rewrite Nat.min_l.
Qed.

(** A [Put] whose driver calls all go through, on a new object id. *)
Lemma PutWith_through cs fileID uploadDate (buffer : bytes) metadata w :
  0 < cs -> len buffer + cs < 2 ^ 63 ->
  fresh fileID w = true ->
  through (S (Z.to_nat (num_chunks cs (len buffer)))) (pending w) = true ->
  PutWith cs fileID uploadDate buffer metadata w
  = (Ok (Hex.encode fileID), after_put cs fileID uploadDate buffer metadata w).
Proof.
  intros Hcs Hov Hfresh Hthr. unfold PutWith.
  set (N := Z.to_nat (num_chunks cs (len buffer))) in *.
  erewrite bind_ok.
  2:{ rewrite put_chunks_split, chunk_docs_from_0 by assumption.
      apply insert_chunk_docs_through.
      - eapply through_le; [|exact Hthr]. lia.
      - by apply fresh_free_from. }
  fold N. rewrite <- chunk_docs_from_0.
  erewrite bind_ok; [reflexivity|].
  unfold InsertOne. rewrite driver_through.
  2:{ unfold next_call_ok. rewrite pending_set_docs. cbn [pending set_pending].
      replace (S N) with (N + 1)%nat in Hthr by lia.
      apply through_drop, (through_S 0) in Hthr as [H _]. exact H. }
  cbn [docs filesColl chunksColl pending set_docs set_pending].
  replace (existsb _ (filesColl w)) with false.
  2:{ symmetry. rewrite <- (fresh_files _ _ Hfresh).
      apply existsb_pointwise. intros d. apply same_key_fileDoc. }
  unfold after_put. cbn [chunksColl pending]. by rewrite tail_drop.
Qed.

(** A [Put] whose insert of chunk [j] fails. *)
Lemma PutWith_chunk_fails cs fileID uploadDate (buffer : bytes) metadata w j e :
  0 < cs -> len buffer + cs < 2 ^ 63 ->
  fresh fileID w = true ->
  (j < Z.to_nat (num_chunks cs (len buffer)))%nat ->
  through j (pending w) = true ->
  pending w !! j = Some (Some e) ->
  PutWith cs fileID uploadDate buffer metadata w
  = (Err e,
     {| filesColl := filesColl w;
        chunksColl := chunksColl w ++ take j (chunk_docs cs fileID buffer);
        pending := drop (S j) (pending w) |}).
Proof.
  intros Hcs Hov Hfresh Hj Hthr He. unfold PutWith.
  erewrite bind_err; [reflexivity|].
  rewrite put_chunks_split, chunk_docs_from_0 by assumption.
  rewrite (insert_chunk_docs_fails cs fileID buffer _ j 0 w e);
    [|assumption..|by apply fresh_free_from].
  by rewrite <- chunk_docs_from_take by lia.
Qed.

Lemma after_put_stored cs fileID uploadDate (buffer : bytes) metadata w :
  0 < cs < 2 ^ 31 ->
  fresh fileID w = true ->
  stored cs fileID buffer metadata
    (after_put cs fileID uploadDate buffer metadata w).
Proof.
  intros Hcs Hfresh. split.
  - eexists. split.
    + cbn [after_put filesColl].
      rewrite find_app_None by apply find_existsb_false, fresh_files, Hfresh.
      cbn [List.find]. by rewrite matches_by_id_fileDoc, bytes_eqb_refl.
    + rewrite <- (enc_int_small cs) by lia. repeat split.
  - intros i Hi. eexists. split.
    + cbn [after_put chunksColl].
      rewrite find_app_None
        by (apply find_existsb_false, (fresh_free_from _ _ 0 Hfresh); lia).
      rewrite chunk_docs_from_0. unfold chunk_docs_from.
      apply (find_map_seq _ _ i); [|lia].
      intros j. rewrite matches_by_chunk_chunkDoc, bytes_eqb_refl. cbn [andb].
      destruct (Nat.eqb_spec j i) as [->|Hne]; [apply Z.eqb_refl|].
      apply Z.eqb_neq. lia.
    + reflexivity.
Qed.

(** ** Reassembly *)

Lemma slice_from_ok (buffer : bytes) (off : nat) :
  (off <= length buffer)%nat ->
  slice buffer (Z.of_nat off) (len buffer) = Ok (drop off buffer).
Proof.
  intros Hoff. unfold slice, len.
  destruct (Z.leb_spec 0 (Z.of_nat off)); [|lia].
  destruct (Z.leb_spec (Z.of_nat off) (Z.of_nat (length buffer))); [|lia].
  rewrite Z.leb_refl. cbn [andb]. rewrite Nat2Z.id.
  rewrite take_ge; [reflexivity|]. rewrite length_drop. lia.
Qed.

(** What [copy(buffer[off:], src)] leaves in [buffer] when [src] fits. *)
Lemma copy_at_fits (buffer src : bytes) (off : nat) :
  (off + length src <= length buffer)%nat ->
  copy_at buffer (Z.of_nat off) src
  = Ok (take off buffer ++ src ++ drop (off + length src) buffer).
Proof.
  intros Hfit. unfold copy_at. rewrite slice_from_ok by lia.
  rewrite Nat2Z.id. unfold copy. rewrite length_drop.
  rewrite (take_ge src) by lia. by rewrite drop_drop.
Qed.

Lemma copy_at_lookup (buffer src : bytes) (off j : nat) :
  (off + length src <= length buffer)%nat ->
  (take off buffer ++ src ++ drop (off + length src) buffer) !! j
  = if decide (off <= j < off + length src)%nat then src !! (j - off)%nat
    else buffer !! j.
Proof.
  intros Hfit.
  destruct (decide (j < off)%nat) as [Hlt|Hge].
  - rewrite lookup_app_l by (rewrite length_take; lia).
    rewrite lookup_take_lt by lia. by rewrite decide_False by lia.
  - rewrite lookup_app_r by (rewrite length_take; lia).
    rewrite length_take, Nat.min_l by lia.
    destruct (decide (j - off < length src)%nat) as [Hin|Hout].
    + rewrite lookup_app_l by lia. by rewrite decide_True by lia.
    + rewrite lookup_app_r by lia. rewrite lookup_drop.
      rewrite decide_False by lia. f_equal. lia.
Qed.

Section reassembly.
Variables (cs : Z) (buffer : bytes).
Hypothesis Hcs : 0 < cs.

Let c : nat := Z.to_nat cs.
Let L : nat := length buffer.
Let N : nat := Z.to_nat (num_chunks cs (len buffer)).

Lemma chunk_index_lt i : (i < N)%nat <-> (i * c < L)%nat.
Proof.
  subst N c L.
  pose proof (num_chunks_lt cs (len buffer) (Z.of_nat i) Hcs
                (len_nonneg buffer) ltac:(lia)) as H.
  pose proof (num_chunks_nonneg cs _ Hcs (len_nonneg buffer)).
  unfold len in *. split; intros Hi.
  - assert (Z.of_nat i * cs < Z.of_nat (length buffer)) by (apply H; lia). nia.
  - assert (Z.of_nat i < num_chunks cs (Z.of_nat (length buffer)))
      by (apply H; nia). lia.
Qed.

Lemma length_chunk_data_nat i :
  length (chunk_data cs buffer i) = Nat.min c (L - i * c).
Proof. unfold chunk_data. by rewrite length_take, length_drop. Qed.

Lemma agree_initial : agree cs buffer (fun _ => False) (replicate L x00).
Proof. split; [apply length_replicate|]. intros i j []. Qed.

(** Copying chunk [i] to its place adds window [i]. *)
Lemma agree_copy P dst i :
  agree cs buffer P dst -> (i < N)%nat ->
  agree cs buffer (fun i' => i' = i \/ P i')
    (take (i * c) dst ++ chunk_data cs buffer i
       ++ drop (i * c + length (chunk_data cs buffer i)) dst).
Proof.
  intros [Hlen Hag] Hi. apply chunk_index_lt in Hi.
  pose proof (length_chunk_data_nat i) as Hld.
  assert (Hfit : (i * c + length (chunk_data cs buffer i) <= length dst)%nat)
    by (subst L; lia).
  split.
  - rewrite !length_app, length_take, length_drop. lia.
  - intros i' j HP Hj. rewrite copy_at_lookup by exact Hfit.
    fold c in Hj. case_decide as Hin.
    + unfold chunk_data. fold c. rewrite lookup_take_lt by lia.
      rewrite lookup_drop. f_equal. lia.
    + destruct (decide (i' = i)) as [->|Hne].
      * (* beyond the last byte of the last chunk *)
        rewrite !lookup_ge_None_2; [reflexivity|subst L; lia|lia].
      * destruct HP as [->|HP]; [done|]. apply (Hag i'); [exact HP|exact Hj].
Qed.

Lemma agree_all dst : agree cs buffer (fun i => (i < N)%nat) dst -> dst = buffer.
Proof.
  intros [Hlen Hag]. apply list_eq. intros j.
  destruct (decide (j < L)%nat) as [Hj|Hj].
  - assert (0 < c)%nat by (subst c; lia).
    apply (Hag (j / c)%nat).
    + apply chunk_index_lt.
      pose proof (Nat.Div0.mul_div_le j c). lia.
    + fold c. pose proof (Nat.Div0.mul_div_le j c).
      pose proof (Nat.mul_succ_div_gt j c ltac:(lia)). lia.
  - rewrite !lookup_ge_None_2; [reflexivity|subst L; lia|lia].
Qed.

End reassembly.

Lemma agree_weaken cs (buffer : bytes) (P Q : nat -> Prop) dst :
  (forall i, Q i -> P i) -> agree cs buffer P dst -> agree cs buffer Q dst.
Proof. intros HQP [Hlen Hag]. split; [exact Hlen|]. intros i j HQ. apply Hag, HQP, HQ. Qed.

Lemma FindOne_found c filter w d :
  pending w = [] -> List.find (matches filter) (docs c w) = Some d ->
  FindOne c filter w = (Ok d, w).
Proof. intros Hq Hf. unfold FindOne. rewrite driver_quiet by exact Hq. by rewrite Hf. Qed.


Lemma int_div_exact i cs :
  0 < cs -> 0 <= i -> i * cs < 2 ^ 63 -> int_div (i * cs) cs = Ok i.
Proof.
  intros Hcs Hi Hov. unfold int_div.
  destruct (Z.eqb_spec cs 0); [lia|].
  rewrite Z.quot_mul by lia. rewrite wrap64_small by nia. reflexivity.
Qed.

(** ** Reading a stored object *)

Section reading.
Variables (cs : Z) (fileID : ObjectID) (buffer : bytes) (metadata : GoMap).
Variable w : World.
Hypothesis Hcs : 0 < cs < 2 ^ 31.
Hypothesis Hov : len buffer + cs < 2 ^ 63.
Hypothesis Hquiet : pending w = [].
Hypothesis Hstored : stored cs fileID buffer metadata w.

Let N : nat := Z.to_nat (num_chunks cs (len buffer)).

(** Fetching chunk [i] and copying it to its place. *)
Lemma fetch_chunk (i : nat) (P : nat -> Prop) (dst : bytes) :
  (i < N)%nat -> agree cs buffer P dst ->
  exists doc dst',
    FindOne Chunks (by_chunk fileID (Z.of_nat i)) w = (Ok doc, w)
    /\ assert_Binary doc "data" = Ok (chunk_data cs buffer i)
    /\ copy_at dst (Z.of_nat i * cs) (chunk_data cs buffer i) = Ok dst'
    /\ agree cs buffer (fun i' => i' = i \/ P i') dst'.
Proof.
  intros Hi Hag. destruct Hstored as [_ Hchunks].
  destruct (Hchunks i Hi) as (doc & Hfind & Hdata).
  exists doc. eexists. split; [|split; [|split]].
  - apply FindOne_found; [exact Hquiet|exact Hfind].
  - unfold assert_Binary. by rewrite Hdata.
  - replace (Z.of_nat i * cs) with (Z.of_nat (i * Z.to_nat cs)) by lia.
    apply copy_at_fits.
    destruct Hag as [Hlen _]. rewrite Hlen, length_chunk_data_nat.
    apply (chunk_index_lt cs buffer) in Hi; lia.
  - apply agree_copy; [lia|exact Hag|exact Hi].
Qed.

Lemma get_chunks_stored : forall fuel (i : nat) (dst : bytes),
  (i <= N)%nat -> (N - i < fuel)%nat ->
  agree cs buffer (fun i' => (i' < i)%nat) dst ->
  get_chunks fuel fileID (len buffer) cs dst
    (Z.min (Z.of_nat i * cs) (len buffer)) w
  = (Ok buffer, w).
Proof.
  pose proof (len_nonneg buffer) as HL.
  induction fuel as [|fuel IH]; intros i dst Hi Hfuel Hag; [lia|].
  cbn [get_chunks].
  pose proof (chunk_index_lt cs buffer ltac:(lia) i) as Hlt. fold N in Hlt.
  destruct (Z.ltb_spec (Z.min (Z.of_nat i * cs) (len buffer)) (len buffer))
    as [Hin|Hout].
  - assert (HiN : (i < N)%nat) by (apply Hlt; unfold len in *; nia).
    rewrite Z.min_l by lia.
    rewrite int_div_exact by lia. rewrite bind_lift_ok.
    destruct (fetch_chunk i _ dst HiN Hag) as (doc & dst' & Hf & Ha & Hc & Hag').
    change [("files_id"%string, VObjectID fileID);
            ("n"%string, VInt64 (Z.of_nat i))]
      with (by_chunk fileID (Z.of_nat i)).
    rewrite (bind_ok _ _ _ _ _ Hf), Ha, bind_lift_ok, Hc, bind_lift_ok.
    rewrite int_add_small
      by (pose proof (length_chunk_data cs buffer i ltac:(lia)); lia).
    replace (Z.of_nat i * cs + len (chunk_data cs buffer i))
      with (Z.min (Z.of_nat (S i) * cs) (len buffer))
      by (rewrite (length_chunk_data cs buffer i) by lia; lia).
    apply IH; [lia|lia|].
    eapply agree_weaken; [|exact Hag']. intros i' Hi'. cbn beta. lia.
  - assert (i = N) as ->.
    { destruct (decide (i < N)%nat) as [HiN|]; [|lia].
      apply Hlt in HiN. unfold len in *. nia. }
    rewrite (agree_all cs buffer ltac:(lia) dst Hag). reflexivity.
Qed.

Lemma collect_in_order_stored : forall (order : list Z) (P : nat -> Prop) dst,
  (forall z, z ∈ order -> 0 <= z < Z.of_nat N) ->
  agree cs buffer P dst ->
  exists dst',
    collect_in_order order fileID cs dst w = (Ok dst', w)
    /\ agree cs buffer (fun i => Z.of_nat i ∈ order \/ P i) dst'.
Proof.
  pose proof (len_nonneg buffer) as HL.
  induction order as [|z order IH]; intros P dst Hrange Hag.
  - exists dst. split; [reflexivity|].
    eapply agree_weaken; [|exact Hag]. intros i [Hi|Hi]; [|exact Hi].
    by apply not_elem_of_nil in Hi.
  - assert (Hz : 0 <= z < Z.of_nat N) by (apply Hrange; left).
    assert (HiN : (Z.to_nat z < N)%nat) by lia.
    destruct (fetch_chunk _ _ dst HiN Hag) as (doc & dst' & Hf & Ha & Hc & Hag').
    rewrite Z2Nat.id in Hf, Hc by lia.
    destruct (IH _ dst' (fun z' Hz' => Hrange z' (list_elem_of_further _ _ _ Hz')) Hag')
      as (dst'' & Hcol & Hag'').
    exists dst''. split.
    + cbn [collect_in_order].
      change [("files_id"%string, VObjectID fileID); ("n"%string, VInt64 z)]
        with (by_chunk fileID z).
      rewrite (bind_ok _ _ _ _ _ Hf), Ha, bind_lift_ok.
      pose proof (chunk_index_lt cs buffer ltac:(lia) (Z.to_nat z)) as Hlt.
      fold N in Hlt. apply Hlt in HiN.
      rewrite int_mul_small by (unfold len in *; nia).
      rewrite Hc, bind_lift_ok. exact Hcol.
    + eapply agree_weaken; [|exact Hag'']. cbn beta.
      intros i [Hi|Hi]; [|by right; right].
      apply elem_of_cons in Hi as [Hi|Hi]; [right; left; lia|by left].
Qed.

End reading.

Lemma elem_of_indices n z : z ∈ indices n <-> 0 <= z < n.
Proof.
  unfold indices. rewrite list_elem_of_In, in_map_iff. split.
  - intros (i & <- & Hi). apply in_seq in Hi. lia.
  - intros Hz. exists (Z.to_nat z). split; [lia|]. apply in_seq. lia.
Qed.

Lemma length_indices n : length (indices n) = Z.to_nat n.
Proof. unfold indices. by rewrite length_map, length_seq. Qed.

(** ** The loops of [FastGet] *)

Lemma bind_ext {A B} (m : Prog A) (k k' : A -> Prog B) w :
  (forall a w', k a w' = k' a w') -> (m ≫= k) w = (m ≫= k') w.
Proof.
  intros H. unfold mbind, Prog_bind. destruct (m w) as [[a|e|p|] w']; auto.
Qed.

(** The first loop starts the tasks of the indices below [numChunks], and
    no other. *)
Lemma start_fetches_seq n :
  n < 2 ^ 63 ->
  forall fuel (i : nat) chan,
    Z.of_nat i <= n -> (Z.to_nat n - i < fuel)%nat ->
    start_fetches fuel n (Z.of_nat i) chan
    = Ok (chan ++ map Z.of_nat (seq i (Z.to_nat n - i))).
Proof.
  intros Hn. induction fuel as [|fuel IH]; intros i chan Hi Hfuel; [lia|].
  cbn [start_fetches]. destruct (Z.ltb_spec (Z.of_nat i) n) as [Hlt|Hge].
  - rewrite int_add_small by lia.
    replace (Z.of_nat i + 1) with (Z.of_nat (S i)) by lia.
    rewrite IH by lia. rewrite <- app_assoc. do 2 f_equal.
    replace (Z.to_nat n - i)%nat with (S (Z.to_nat n - S i)) by lia.
    reflexivity.
  - replace (Z.to_nat n - i)%nat with 0%nat by lia. cbn [seq map].
    by rewrite app_nil_r.
Qed.

Lemma start_fetches_indices n :
  0 <= n < 2 ^ 63 ->
  start_fetches (S (Z.to_nat n)) n 0 [] = Ok (indices n).
Proof.
  intros Hn. change 0 with (Z.of_nat 0) at 1.
  rewrite (start_fetches_seq n) by lia. by rewrite Nat.sub_0_r.
Qed.

(** A receive takes one of the outstanding results, whatever the
    scheduler. *)
Lemma receive_Some sched chan :
  chan <> [] ->
  exists k chunkIndex,
    chan !! k = Some chunkIndex
    /\ receive sched chan = Some (chunkIndex, tail sched, delete k chan).
Proof.
  intros Hne. unfold receive.
  set (k := Z.to_nat (hd 0 sched mod len chan)).
  assert (Hk : (k < length chan)%nat).
  { subst k. unfold len. destruct chan as [|c chan]; [done|]. cbn [length].
    pose proof (Z.mod_pos_bound (hd 0 sched) (Z.of_nat (S (length chan)))
                  ltac:(lia)). lia. }
  destruct (lookup_lt_is_Some_2 chan k Hk) as [x Hx]. exists k, x.
  by rewrite Hx.
Qed.

Lemma receive_inv sched chan chunkIndex sched' chan' :
  receive sched chan = Some (chunkIndex, sched', chan') ->
  chan ≡ₚ chunkIndex :: chan' /\ length chan = S (length chan').
Proof.
  unfold receive. set (k := Z.to_nat (hd 0 sched mod len chan)).
  destruct (chan !! k) as [x|] eqn:Hx; [|discriminate].
  intros [= <- <- <-]. split; [by apply delete_Permutation|].
  pose proof (lookup_lt_Some _ _ _ Hx) as Hlt.
  rewrite length_delete by eauto. lia.
Qed.

(** The results arrive in an order that is a permutation of the tasks
    started. *)
Lemma arrival_perm : forall n sched chan,
  length chan = n -> arrival n sched chan ≡ₚ chan.
Proof.
  induction n as [|n IH]; intros sched chan Hlen.
  - by destruct chan.
  - cbn [arrival].
    destruct (receive_Some sched chan) as (k & x & Hk & Hr);
      [by destruct chan|].
    rewrite Hr. destruct (receive_inv _ _ _ _ _ Hr) as [Hperm Hl].
    rewrite IH by lia. by symmetry.
Qed.

(** The second loop receives the results of all the tasks started. *)
Lemma collect_chunks_arrival fileID cs n :
  n < 2 ^ 63 ->
  forall fuel sched chan buffer (i : Z) w,
    0 <= i -> len chan = n - i -> (length chan < fuel)%nat ->
    collect_chunks fuel sched chan fileID cs n buffer i w
    = collect_in_order (arrival (length chan) sched chan) fileID cs buffer w.
Proof.
  intros Hn. unfold len.
  induction fuel as [|fuel IH]; intros sched chan buffer i w Hi Hlen Hfuel;
    [lia|].
  cbn [collect_chunks]. destruct (Z.ltb_spec i n) as [Hlt|Hge].
  - destruct (receive_Some sched chan) as (k & x & Hk & Hr);
      [destruct chan; [cbn in Hlen; lia|done]|].
    destruct (receive_inv _ _ _ _ _ Hr) as [_ Hl].
    rewrite Hl. cbn [arrival collect_in_order]. rewrite Hr.
    cbn [collect_in_order].
    apply bind_ext. intros doc w1. apply bind_ext. intros chunkData w2.
    cbv zeta. apply bind_ext. intros buffer' w3.
    rewrite int_add_small by lia. apply IH; lia.
  - destruct chan as [|c chan]; [reflexivity|cbn [length] in Hlen; lia].
Qed.

Lemma make_bytes_len (buffer : bytes) :
  make_bytes (len buffer) = Ok (replicate (length buffer) x00).
Proof.
  unfold make_bytes, len.
  destruct (Z.leb_spec 0 (Z.of_nat (length buffer))); [|lia].
  by rewrite Nat2Z.id.
Qed.

Section reading_whole.
Variables (cs : Z) (fileID : ObjectID) (buffer : bytes) (metadata : GoMap).
Variable w : World.
Hypothesis Hcs : 0 < cs < 2 ^ 31.
Hypothesis Hov : len buffer + cs < 2 ^ 63.
Hypothesis Hid : length fileID = 12%nat.
Hypothesis Hquiet : pending w = [].
Hypothesis Hstored : stored cs fileID buffer metadata w.

(** The common beginning of [Get] and [FastGet]. *)
Lemma manifest_stored :
  exists doc : M,
    FindOne Files [("_id"%string, VObjectID fileID)] w = (Ok doc, w)
    /\ assert_int64 doc "length" = Ok (len buffer)
    /\ assert_int32 doc "chunk_size" = Ok cs
    /\ assert_M doc "metadata"
       = match metadata with
         | Some m => Ok m
         | None => Panic (TypeAssertion "metadata")
         end.
Proof.
  destruct Hstored as [(doc & Hfind & Hlen & Hsize & Hmeta & _) _].
  exists doc. split; [|split; [|split]].
  - by apply FindOne_found.
  - unfold assert_int64. by rewrite Hlen.
  - unfold assert_int32. by rewrite Hsize.
  - unfold assert_M. rewrite Hmeta. by destruct metadata.
Qed.

Lemma Get_stored_nil fuel :
  metadata = None ->
  Get fuel (Hex.encode fileID) w = (Panic (TypeAssertion "metadata"), w).
Proof.
  intros Hnil. unfold Get.
  rewrite ObjectIDFromHex_Hex by exact Hid. rewrite bind_lift_ok.
  destruct manifest_stored as (doc & Hfind & Hlen & Hsize & Hmeta).
  rewrite (bind_ok _ _ _ _ _ Hfind), Hlen, bind_lift_ok, Hsize, bind_lift_ok, Hmeta.
  by rewrite Hnil.
Qed.

Lemma Get_stored fuel :
  (Z.to_nat (num_chunks cs (len buffer)) < fuel)%nat ->
  Get fuel (Hex.encode fileID) w = (read_result buffer metadata, w).
Proof.
  intros Hfuel. unfold Get.
  rewrite ObjectIDFromHex_Hex by exact Hid. rewrite bind_lift_ok.
  destruct manifest_stored as (doc & Hfind & Hlen & Hsize & Hmeta).
  rewrite (bind_ok _ _ _ _ _ Hfind), Hlen, bind_lift_ok, Hsize, bind_lift_ok, Hmeta.
  destruct metadata as [m|]; [|reflexivity].
  rewrite bind_lift_ok, make_bytes_len, bind_lift_ok.
  pose proof (get_chunks_stored cs fileID buffer (Some m) w Hcs Hov Hquiet
                Hstored fuel 0 (replicate (length buffer) x00)
                ltac:(lia) ltac:(lia)) as Hloop.
  change (Z.of_nat 0 * cs) with 0 in Hloop.
  rewrite Z.min_l in Hloop by apply len_nonneg.
  erewrite bind_ok; [reflexivity|]. apply Hloop.
  eapply agree_weaken; [|apply agree_initial]. cbn beta. lia.
Qed.

Lemma FastGet_stored (sched : list Z) :
  FastGet sched (Hex.encode fileID) w = (read_result buffer metadata, w).
Proof.
  unfold FastGet.
  pose proof (len_nonneg buffer) as HL.
  pose proof (num_chunks_nonneg cs (len buffer) ltac:(lia) HL) as HN.
  pose proof (num_chunks_le cs (len buffer) ltac:(lia) HL) as HNL.
  rewrite ObjectIDFromHex_Hex by exact Hid. rewrite bind_lift_ok.
  destruct manifest_stored as (doc & Hfind & Hlen & Hsize & Hmeta).
  rewrite (bind_ok _ _ _ _ _ Hfind), Hlen, bind_lift_ok, Hsize, bind_lift_ok, Hmeta.
  destruct metadata as [m|]; [|reflexivity].
  rewrite bind_lift_ok, make_bytes_len, bind_lift_ok.
  rewrite int_add_small, int_sub_small by lia.
  unfold int_div. destruct (Z.eqb_spec cs 0); [lia|].
  rewrite Z.quot_div_nonneg by lia. fold (num_chunks cs (len buffer)).
  rewrite wrap64_small by lia. rewrite bind_lift_ok.
  unfold make_chan. destruct (Z.leb_spec 0 (num_chunks cs (len buffer))); [|lia].
  rewrite bind_lift_ok.
  rewrite start_fetches_indices by lia. rewrite bind_lift_ok.
  set (N := num_chunks cs (len buffer)) in *.
  set (order := arrival (length (indices N)) sched (indices N)).
  assert (Hperm : order ≡ₚ indices N) by (by apply arrival_perm).
  destruct (collect_in_order_stored cs fileID buffer (Some m) w Hcs Hov Hquiet
              Hstored order (fun _ => False) (replicate (length buffer) x00))
    as (dst & Hcol & Hag).
  { intros z Hz. rewrite Hperm in Hz. apply elem_of_indices in Hz.
    subst N. lia. }
  { apply agree_initial. }
  erewrite bind_ok.
  2:{ rewrite collect_chunks_arrival;
        [exact Hcol|lia|lia| |].
      - unfold len. rewrite length_indices. lia.
      - rewrite length_indices. lia. }
  cbn [read_result].
  rewrite (agree_all cs buffer ltac:(lia) dst); [reflexivity|].
  eapply agree_weaken; [|exact Hag]. cbn beta. intros i Hi. left.
  rewrite Hperm. apply elem_of_indices. subst N. lia.
Qed.

End reading_whole.

(** ** Chunking *)

Lemma lookup_map {A B} (f : A -> B) (l : list A) (i : nat) :
  map f l !! i = f <$> (l !! i).
Proof.
  revert i. induction l as [|x l IH]; intros [|i]; try reflexivity. apply IH.
Qed.

Lemma length_split cs (buffer : bytes) :
  length (split cs buffer) = Z.to_nat (num_chunks cs (len buffer)).
Proof. unfold split. by rewrite length_map, length_seq. Qed.

Lemma lookup_split cs (buffer : bytes) i n data :
  split cs buffer !! i = Some (n, data) ->
  n = Z.of_nat i /\ data = chunk_data cs buffer i
  /\ (i < Z.to_nat (num_chunks cs (len buffer)))%nat.
Proof.
  unfold split. rewrite lookup_map. intros H.
  destruct (seq 0 (Z.to_nat (num_chunks cs (len buffer))) !! i) as [j|] eqn:Hj;
    [|discriminate].
  apply lookup_seq in Hj as [-> Hi]. cbn in H. by injection H as <- <-.
Qed.

Lemma last_chunk_length cs L i :
  0 < cs -> 0 <= i -> i * cs < L <= (i + 1) * cs ->
  L - i * cs = if L mod cs =? 0 then cs else L mod cs.
Proof.
  intros Hcs Hi HL.
  pose proof (Z.div_mod L cs ltac:(lia)) as Hdm.
  pose proof (Z.mod_pos_bound L cs Hcs) as Hr.
  destruct (Z.eqb_spec (L mod cs) 0) as [H0|H0].
  - assert (L / cs = i + 1) by nia. nia.
  - assert (L / cs = i) by nia. nia.
Qed.

(** C3.  Chunking completeness.  In a world whose driver calls go through,
    and for a new object id, the loop of [Put] inserts exactly the chunks of
    [split].  There are [ceil (L / C)] of them, none for an empty buffer;
    chunk [i] is numbered [i]; every chunk has at most [C] bytes, every
    chunk but the last exactly [C], and the last one [L mod C] bytes, or
    [C] when [C] divides [L]. *)
Theorem chunking_completeness cs fileID (buffer : bytes) w :
  0 < cs -> len buffer + cs < 2 ^ 63 ->
  fresh fileID w = true -> pending w = [] ->
  put_chunks (S (length buffer)) cs fileID buffer 0 0 w
  = (Ok tt,
     set_docs Chunks
       (chunksColl w
        ++ map (fun c => chunkDoc fileID (fst c) (snd c)) (split cs buffer)) w)
  /\ len (split cs buffer) = (len buffer + cs - 1) / cs
  /\ len buffer <= len (split cs buffer) * cs < len buffer + cs
  /\ (len buffer = 0 -> split cs buffer = [])
  /\ forall (i : nat) n data,
       split cs buffer !! i = Some (n, data) ->
       n = Z.of_nat i
       /\ len data <= cs
       /\ (Z.of_nat i + 1 < len (split cs buffer) -> len data = cs)
       /\ (Z.of_nat i + 1 = len (split cs buffer) ->
           len data = if len buffer mod cs =? 0 then cs else len buffer mod cs).
Proof.
  intros Hcs Hov Hfresh Hquiet.
  pose proof (len_nonneg buffer) as HL.
  pose proof (num_chunks_nonneg cs _ Hcs HL) as HN.
  assert (Hlen : len (split cs buffer) = num_chunks cs (len buffer))
    by (unfold len at 1; rewrite length_split; lia).
  pose proof (num_chunks_lt cs (len buffer)) as Hlt.
  split; [|split; [|split; [|split]]].
  - rewrite put_chunks_split by assumption.
    fold (chunk_docs cs fileID buffer). rewrite chunk_docs_from_0.
    rewrite insert_chunk_docs_through.
    + rewrite Hquiet, drop_nil, <- Hquiet. by rewrite set_pending_same.
    + rewrite Hquiet. apply through_nil.
    + by apply fresh_free_from.
  - exact Hlen.
  - rewrite Hlen. split.
    + destruct (Z.le_gt_cases (len buffer) (num_chunks cs (len buffer) * cs));
        [assumption|].
      assert (num_chunks cs (len buffer) < num_chunks cs (len buffer)); [|lia].
      apply Hlt; lia.
    + destruct (Z.eq_dec (num_chunks cs (len buffer)) 0) as [->|Hne]; [lia|].
      assert ((num_chunks cs (len buffer) - 1) * cs < len buffer); [|lia].
      apply Hlt; lia.
  - intros H0. apply length_zero_iff_nil. rewrite length_split.
    unfold num_chunks. rewrite H0. rewrite Z.div_small by lia. reflexivity.
  - intros i n data Hi.
    apply lookup_split in Hi as (-> & -> & Hi).
    rewrite Hlen, length_chunk_data by exact Hcs.
    assert (Hin : Z.of_nat i * cs < len buffer) by (apply Hlt; lia).
    split; [reflexivity|]. split; [lia|]. split.
    + intros Hnext.
      assert ((Z.of_nat i + 1) * cs < len buffer) by (apply Hlt; lia). lia.
    + intros Hlast.
      assert (~ (Z.of_nat i + 1) * cs < len buffer) by (rewrite <- Hlt; lia).
      rewrite <- (last_chunk_length cs (len buffer) (Z.of_nat i)) by lia. lia.
Qed.

Lemma chunking_completeness_witness :
  0 < 5 /\ len sample_buffer + 5 < 2 ^ 63
  /\ fresh sample_id empty_world = true /\ pending empty_world = []
  /\ len (split 5 sample_buffer) = 3
  /\ map (fun c => len (snd c)) (split 5 sample_buffer) = [5; 5; 2].
Proof.
  assert (H5 : 0 < 5) by lia.
  assert (Hov : len sample_buffer + 5 < 2 ^ 63) by (vm_compute; reflexivity).
  split; [exact H5|]. split; [exact Hov|].
  split; [reflexivity|]. split; [reflexivity|]. split.
  - destruct (chunking_completeness 5 sample_id sample_buffer empty_world
                H5 Hov eq_refl eq_refl) as (_ & H & _).
    rewrite H. reflexivity.
  - reflexivity.
Defined.

(** ** Fuel *)

Lemma bind_mono {A B} (m : Prog A) (k k' : A -> Prog B) w :
  (forall a w', fst (k a w') <> OutOfFuel -> k' a w' = k a w') ->
  fst ((m ≫= k) w) <> OutOfFuel ->
  (m ≫= k') w = (m ≫= k) w.
Proof.
  intros Hk. unfold mbind, Prog_bind.
  destruct (m w) as [[a|e|p|] w']; auto.
Qed.

(** More fuel does not change a result. *)
Lemma get_chunks_mono fuel : forall fuel' fileID fileSize chunkSize buffer offset w,
  (fuel <= fuel')%nat ->
  fst (get_chunks fuel fileID fileSize chunkSize buffer offset w) <> OutOfFuel ->
  get_chunks fuel' fileID fileSize chunkSize buffer offset w
  = get_chunks fuel fileID fileSize chunkSize buffer offset w.
Proof.
  induction fuel as [|fuel IH];
    intros fuel' fileID fileSize chunkSize buffer offset w Hle Hres.
  - by cbn in Hres.
  - destruct fuel' as [|fuel']; [lia|].
    cbn [get_chunks] in *.
    destruct (offset <? fileSize); [|reflexivity].
    apply bind_mono; [|exact Hres]. intros n w1 H1.
    apply bind_mono; [|exact H1]. intros doc w2 H2.
    apply bind_mono; [|exact H2]. intros chunkData w3 H3.
    apply bind_mono; [|exact H3]. intros buffer' w4 H4.
    apply IH; [lia|exact H4].
Qed.

Lemma Get_mono fuel fuel' fileId w :
  (fuel <= fuel')%nat ->
  fst (Get fuel fileId w) <> OutOfFuel ->
  Get fuel' fileId w = Get fuel fileId w.
Proof.
  intros Hle Hres. unfold Get in *.
  apply bind_mono; [|exact Hres]. intros fileID w1 H1.
  apply bind_mono; [|exact H1]. intros doc w2 H2.
  apply bind_mono; [|exact H2]. intros fileSize w3 H3.
  apply bind_mono; [|exact H3]. intros chunkSize w4 H4.
  apply bind_mono; [|exact H4]. intros metadata w5 H5.
  apply bind_mono; [|exact H5]. intros buffer w6 H6.
  unfold mbind, Prog_bind in *.
  rewrite (get_chunks_mono fuel fuel'); [reflexivity|exact Hle|].
  destruct (get_chunks fuel _ _ _ _ _ w6) as [[b|e|p|] w7]; cbn in *; congruence.
Qed.

(** ** Round trip *)

(** After a [Put] whose calls all went through, the object is read back:
    the buffer and the metadata, unless the metadata was the nil map. *)
Lemma Put_Get cs fileID uploadDate (buffer : bytes) metadata w fuel :
  0 < cs < 2 ^ 31 -> len buffer + cs < 2 ^ 63 ->
  length fileID = 12%nat ->
  fresh fileID w = true -> pending w = [] ->
  (Z.to_nat (num_chunks cs (len buffer)) < fuel)%nat ->
  exists w',
    PutWith cs fileID uploadDate buffer metadata w = (Ok (Hex.encode fileID), w')
    /\ pending w' = []
    /\ stored cs fileID buffer metadata w'
    /\ Get fuel (Hex.encode fileID) w' = (read_result buffer metadata, w').
Proof.
  intros Hcs Hov Hid Hfresh Hquiet Hfuel.
  exists (after_put cs fileID uploadDate buffer metadata w).
  assert (Hq' : pending (after_put cs fileID uploadDate buffer metadata w) = [])
    by (cbn [after_put pending]; by rewrite Hquiet, drop_nil).
  pose proof (after_put_stored cs fileID uploadDate buffer metadata w Hcs Hfresh)
    as Hst.
  split; [|split; [exact Hq'|split; [exact Hst|]]].
  - apply PutWith_through; [lia|assumption..|].
    rewrite Hquiet. apply through_nil.
  - by apply (Get_stored cs).
Qed.

Lemma Put_Get_roundtrip cs fileID uploadDate (buffer : bytes) (m : M) w fuel :
  0 < cs < 2 ^ 31 -> len buffer + cs < 2 ^ 63 ->
  length fileID = 12%nat ->
  fresh fileID w = true -> pending w = [] ->
  (Z.to_nat (num_chunks cs (len buffer)) < fuel)%nat ->
  exists fileId w',
    PutWith cs fileID uploadDate buffer (Some m) w = (Ok fileId, w')
    /\ Get fuel fileId w' = (Ok (buffer, m), w').
Proof.
  intros Hcs Hov Hid Hfresh Hquiet Hfuel.
  destruct (Put_Get cs fileID uploadDate buffer (Some m) w fuel)
    as (w' & Hput & _ & _ & Hget); try assumption.
  eauto.
Qed.

Example roundtrip_empty :
  let r := PutWith 5 sample_id 0 [] (Some sample_metadata) empty_world in
  fst r = Ok sample_hex
  /\ chunksColl (snd r) = []
  /\ fst (Get 1 sample_hex (snd r)) = Ok ([], sample_metadata).
Proof. cbv zeta. split; [|split]; vm_compute; reflexivity. Qed.

Example roundtrip_one_chunk :
  let r := PutWith 12 sample_id 0 sample_buffer (Some sample_metadata) empty_world in
  fst r = Ok sample_hex
  /\ length (chunksColl (snd r)) = 1%nat
  /\ fst (Get 2 sample_hex (snd r)) = Ok (sample_buffer, sample_metadata).
Proof. cbv zeta. split; [|split]; vm_compute; reflexivity. Qed.

Example roundtrip_three_chunks :
  let r := PutWith 5 sample_id 0 sample_buffer (Some sample_metadata) empty_world in
  fst r = Ok sample_hex
  /\ length (chunksColl (snd r)) = 3%nat
  /\ fst (Get 4 sample_hex (snd r)) = Ok (sample_buffer, sample_metadata)
  /\ fst (FastGet [2; 0; 1] sample_hex (snd r)) = Ok (sample_buffer, sample_metadata).
Proof. cbv zeta. split; [|split; [|split]]; vm_compute; reflexivity. Qed.

(** C1.  Round trip.  It holds for every buffer and every metadata map
    that is not nil ([Put_Get_roundtrip]).  With the nil map, which [Put]
    accepts as any other, the manifest gets a null [metadata] field and
    [Get] panics on its type assertion instead of returning the buffer. *)
Theorem roundtrip_fails_on_nil_metadata :
  let r := Put sample_id 0 sample_buffer None empty_world in
  fst r = Ok sample_hex
  /\ fst (Get 2 sample_hex (snd r)) = Panic (TypeAssertion "metadata")
  /\ fst (FastGet [0] sample_hex (snd r)) = Panic (TypeAssertion "metadata").
Proof. cbv zeta. split; [|split]; vm_compute; reflexivity. Qed.

(** C8.  The type assertions of [Get] on a manifest written by [Put].  The
    assertions on [length] and [chunk_size] succeed.  The assertion on
    [metadata] succeeds for a map ([manifest_stored]) and panics when [Put]
    was given the nil map: the panic is reachable on manifests that [Put]
    itself wrote. *)
Theorem nil_metadata_manifest_panics fileID uploadDate (buffer : bytes) w :
  length fileID = 12%nat -> len buffer + ChunkSize < 2 ^ 63 ->
  fresh fileID w = true -> pending w = [] ->
  exists w' (doc : M),
    Put fileID uploadDate buffer None w = (Ok (Hex.encode fileID), w')
    /\ FindOne Files [("_id"%string, VObjectID fileID)] w' = (Ok doc, w')
    /\ assert_int64 doc "length" = Ok (len buffer)
    /\ assert_int32 doc "chunk_size" = Ok ChunkSize
    /\ assert_M doc "metadata" = Panic (TypeAssertion "metadata")
    /\ forall fuel,
         Get fuel (Hex.encode fileID) w' = (Panic (TypeAssertion "metadata"), w').
Proof.
  intros Hid Hov Hfresh Hquiet.
  assert (Hcs : 0 < ChunkSize < 2 ^ 31) by (rewrite ChunkSize_eq; lia).
  destruct (Put_Get ChunkSize fileID uploadDate buffer None w
              (S (Z.to_nat (num_chunks ChunkSize (len buffer)))))
    as (w' & Hput & Hq' & Hst & _); try assumption; [lia|].
  destruct (manifest_stored ChunkSize fileID buffer None w' Hq' Hst)
    as (doc & Hfind & Hlen & Hsize & Hmeta).
  exists w', doc. repeat split; try assumption.
  intros fuel. by eapply Get_stored_nil.
Qed.

Lemma nil_metadata_manifest_panics_witness :
  length sample_id = 12%nat /\ len sample_buffer + ChunkSize < 2 ^ 63
  /\ fresh sample_id empty_world = true /\ pending empty_world = []
  /\ exists w',
       Put sample_id 0 sample_buffer None empty_world = (Ok sample_hex, w')
       /\ Get 2 sample_hex w' = (Panic (TypeAssertion "metadata"), w').
Proof.
  assert (Hov : len sample_buffer + ChunkSize < 2 ^ 63) by (vm_compute; reflexivity).
  split; [reflexivity|]. split; [exact Hov|].
  split; [reflexivity|]. split; [reflexivity|].
  destruct (nil_metadata_manifest_panics sample_id 0 sample_buffer empty_world
              eq_refl Hov eq_refl eq_refl) as (w' & doc & Hput & _ & _ & _ & _ & Hget).
  exists w'. split; [exact Hput|apply Hget].
Defined.

(** C7.  Checksum fidelity.  The manifest written by [Put] holds the MD5
    checksum of the payload in hexadecimal, and whenever [Get] returns
    bytes for that object, the stored checksum is the checksum of those
    bytes.  [Get] does return when the metadata is a map and the fuel
    covers the chunks. *)
Theorem checksum_fidelity cs fileID uploadDate (buffer : bytes) metadata w :
  0 < cs < 2 ^ 31 -> len buffer + cs < 2 ^ 63 ->
  length fileID = 12%nat ->
  fresh fileID w = true -> pending w = [] ->
  exists w' (doc : M),
    PutWith cs fileID uploadDate buffer metadata w = (Ok (Hex.encode fileID), w')
    /\ List.find (matches (by_id fileID)) (filesColl w') = Some doc
    /\ doc !! "md5"%string = Some (VString (Hex.encode (MD5.sum buffer)))
    /\ (forall fuel data md w'',
          Get fuel (Hex.encode fileID) w' = (Ok (data, md), w'') ->
          doc !! "md5"%string = Some (VString (Hex.encode (MD5.sum data))))
    /\ (forall m fuel,
          metadata = Some m ->
          (Z.to_nat (num_chunks cs (len buffer)) < fuel)%nat ->
          Get fuel (Hex.encode fileID) w' = (Ok (buffer, m), w')).
Proof.
  intros Hcs Hov Hid Hfresh Hquiet.
  set (N := Z.to_nat (num_chunks cs (len buffer))).
  destruct (Put_Get cs fileID uploadDate buffer metadata w (S N))
    as (w' & Hput & Hq' & Hst & _); try assumption; [lia|].
  destruct Hst as [(doc & Hfind & Hlen & Hsize & Hmeta & Hmd5) Hchunks].
  assert (Hst : stored cs fileID buffer metadata w').
  { split; [|exact Hchunks]. exists doc. auto. }
  exists w', doc. split; [exact Hput|]. split; [exact Hfind|].
  split; [exact Hmd5|]. split.
  - intros fuel data md w'' Hget.
    assert (Hbig : Get (Nat.max fuel (S N)) (Hex.encode fileID) w'
                   = (Ok (data, md), w'')).
    { rewrite (Get_mono fuel); [exact Hget|lia|]. rewrite Hget. discriminate. }
    rewrite (Get_stored cs fileID buffer metadata w') in Hbig;
      [|assumption..|fold N; lia].
    destruct metadata as [m|]; [|discriminate].
    injection Hbig as <- _ _. exact Hmd5.
  - intros m fuel -> Hfuel.
    by rewrite (Get_stored cs fileID buffer (Some m) w').
Qed.

Lemma checksum_fidelity_witness :
  0 < 5 < 2 ^ 31 /\ len sample_buffer + 5 < 2 ^ 63
  /\ length sample_id = 12%nat
  /\ fresh sample_id empty_world = true /\ pending empty_world = []
  /\ exists w' (doc : M),
       PutWith 5 sample_id 0 sample_buffer (Some sample_metadata) empty_world
       = (Ok sample_hex, w')
       /\ doc !! "md5"%string = Some (VString "fc3ff98e8c6a0d3087d515c0473f8677")
       /\ Get 4 sample_hex w' = (Ok (sample_buffer, sample_metadata), w').
Proof.
  assert (H5 : 0 < 5 < 2 ^ 31) by lia.
  assert (Hov : len sample_buffer + 5 < 2 ^ 63) by (vm_compute; reflexivity).
  split; [exact H5|]. split; [exact Hov|]. split; [reflexivity|].
  split; [reflexivity|]. split; [reflexivity|].
  destruct (checksum_fidelity 5 sample_id 0 sample_buffer (Some sample_metadata)
              empty_world H5 Hov eq_refl eq_refl eq_refl)
    as (w' & doc & Hput & _ & Hmd5 & _ & Hget).
  exists w', doc. split; [exact Hput|]. split; [exact Hmd5|].
  apply Hget; [reflexivity|vm_compute; lia].
Defined.

(** C2.  [FastGet] against [Get].  For an object written by [Put], and
    whatever the scheduler makes of the order in which the chunk results
    reach the collector of [FastGet], it returns what [Get] returns: the
    same bytes and the same metadata (and the same panic when the metadata
    was stored as null).  This holds for every number of chunks. *)
Theorem FastGet_matches_Get cs fileID uploadDate (buffer : bytes) metadata w
    (sched : list Z) fuel :
  0 < cs < 2 ^ 31 -> len buffer + cs < 2 ^ 63 ->
  length fileID = 12%nat ->
  fresh fileID w = true -> pending w = [] ->
  (Z.to_nat (num_chunks cs (len buffer)) < fuel)%nat ->
  exists w',
    PutWith cs fileID uploadDate buffer metadata w = (Ok (Hex.encode fileID), w')
    /\ FastGet sched (Hex.encode fileID) w' = Get fuel (Hex.encode fileID) w'
    /\ Get fuel (Hex.encode fileID) w' = (read_result buffer metadata, w').
Proof.
  intros Hcs Hov Hid Hfresh Hquiet Hfuel.
  destruct (Put_Get cs fileID uploadDate buffer metadata w fuel)
    as (w' & Hput & Hq' & Hst & Hget); try assumption.
  exists w'. split; [exact Hput|]. split; [|exact Hget].
  rewrite Hget. by apply (FastGet_stored cs).
Qed.

Lemma FastGet_matches_Get_witness :
  0 < 5 < 2 ^ 31 /\ len sample_buffer + 5 < 2 ^ 63
  /\ length sample_id = 12%nat
  /\ fresh sample_id empty_world = true /\ pending empty_world = []
  /\ (Z.to_nat (num_chunks 5 (len sample_buffer)) < 4)%nat
  /\ exists w',
       PutWith 5 sample_id 0 sample_buffer (Some sample_metadata) empty_world
       = (Ok sample_hex, w')
       /\ FastGet [2; 0; 1] sample_hex w' = Get 4 sample_hex w'
       /\ Get 4 sample_hex w' = (Ok (sample_buffer, sample_metadata), w').
Proof.
  assert (H5 : 0 < 5 < 2 ^ 31) by lia.
  assert (Hov : len sample_buffer + 5 < 2 ^ 63) by (vm_compute; reflexivity).
  assert (Hfuel : (Z.to_nat (num_chunks 5 (len sample_buffer)) < 4)%nat)
    by (vm_compute; lia).
  split; [exact H5|]. split; [exact Hov|]. split; [reflexivity|].
  split; [reflexivity|]. split; [reflexivity|]. split; [exact Hfuel|].
  destruct (FastGet_matches_Get 5 sample_id 0 sample_buffer (Some sample_metadata)
              empty_world [2; 0; 1] 4 H5 Hov eq_refl eq_refl eq_refl Hfuel)
    as (w' & Hput & Heq & Hget).
  exists w'. split; [exact Hput|]. split; [exact Heq|exact Hget].
Defined.

(** C5.  Partial failure of [Put].  When the insert of chunk [k] fails with
    [e], [Put] returns [e] and makes no further driver call; the chunks
    [0 .. k-1] stay in the store, and the manifest is not inserted. *)
Theorem Put_partial_failure cs fileID uploadDate (buffer : bytes) metadata w
    (k : nat) e :
  0 < cs -> len buffer + cs < 2 ^ 63 ->
  fresh fileID w = true ->
  (k < Z.to_nat (num_chunks cs (len buffer)))%nat ->
  through k (pending w) = true ->
  pending w !! k = Some (Some e) ->
  exists w',
    PutWith cs fileID uploadDate buffer metadata w = (Err e, w')
    /\ chunksColl w' = chunksColl w ++ take k (chunk_docs cs fileID buffer)
    /\ filesColl w' = filesColl w
    /\ pending w' = drop (S k) (pending w).
Proof.
  intros Hcs Hov Hfresh Hk Hthr He.
  eexists. split; [by apply PutWith_chunk_fails|]. repeat split.
Qed.

Lemma Put_partial_failure_witness :
  let w := set_pending [None; Some (ErrDriver 7); None] empty_world in
  0 < 5 /\ len sample_buffer + 5 < 2 ^ 63
  /\ fresh sample_id w = true
  /\ (1 < Z.to_nat (num_chunks 5 (len sample_buffer)))%nat
  /\ through 1 (pending w) = true
  /\ pending w !! 1%nat = Some (Some (ErrDriver 7))
  /\ exists w',
       PutWith 5 sample_id 0 sample_buffer (Some sample_metadata) w
       = (Err (ErrDriver 7), w')
       /\ chunksColl w' = take 1 (chunk_docs 5 sample_id sample_buffer)
       /\ filesColl w' = []
       /\ pending w' = [None].
Proof.
  cbv zeta.
  assert (H5 : 0 < 5) by lia.
  assert (Hov : len sample_buffer + 5 < 2 ^ 63) by (vm_compute; reflexivity).
  assert (Hk : (1 < Z.to_nat (num_chunks 5 (len sample_buffer)))%nat)
    by (vm_compute; lia).
  split; [exact H5|]. split; [exact Hov|]. split; [reflexivity|].
  split; [exact Hk|]. split; [reflexivity|]. split; [reflexivity|].
  destruct (Put_partial_failure 5 sample_id 0 sample_buffer (Some sample_metadata)
              (set_pending [None; Some (ErrDriver 7); None] empty_world)
              1 (ErrDriver 7) H5 Hov eq_refl Hk eq_refl eq_refl)
    as (w' & Hput & Hchunks & Hfiles & Hpending).
  exists w'. split; [exact Hput|]. split; [exact Hchunks|].
  split; [exact Hfiles|exact Hpending].
Defined.

(** ** Delete *)

Lemma value_eqb_ObjectID fileID v :
  value_eqb (VObjectID fileID) v = true -> v = VObjectID fileID.
Proof.
  destruct v; cbn; try discriminate.
  intros H. apply bytes_eqb_eq in H. by subst.
Qed.

Lemma matches_by_id_field fileID d :
  matches (by_id fileID) d = true <-> field d "_id" = VObjectID fileID.
Proof.
  unfold matches, by_id. cbn [forallb fst snd]. rewrite andb_true_r. split.
  - apply value_eqb_ObjectID.
  - intros ->. cbn. apply bytes_eqb_refl.
Qed.

Lemma remove_first_none (f : M -> bool) ds :
  existsb f ds = false -> remove_first f ds = ds.
Proof.
  induction ds as [|d ds IH]; cbn; [reflexivity|].
  destruct (f d); [discriminate|]. intros H. by rewrite IH.
Qed.

Lemma filter_none (f : M -> bool) ds :
  existsb f ds = false -> List.filter (fun d => negb (f d)) ds = ds.
Proof.
  induction ds as [|d ds IH]; cbn; [reflexivity|].
  destruct (f d); [discriminate|]. cbn. intros H. by rewrite IH.
Qed.

Lemma existsb_filter_negb (f : M -> bool) ds :
  existsb f (List.filter (fun d => negb (f d)) ds) = false.
Proof.
  induction ds as [|d ds IH]; cbn; [reflexivity|].
  destruct (f d) eqn:E; cbn; [exact IH|]. by rewrite E, IH.
Qed.

(** Under the unique index on [_id], removing the first manifest of an
    object leaves none. *)
Lemma existsb_remove_first_unique fileID ds :
  unique_on (unique_key Files) ds = true ->
  existsb (matches (by_id fileID)) (remove_first (matches (by_id fileID)) ds)
  = false.
Proof.
  induction ds as [|d ds IH]; cbn [unique_on remove_first]; [reflexivity|].
  rewrite andb_true_iff, negb_true_iff. intros [Hd Hds].
  destruct (matches (by_id fileID) d) eqn:Hm.
  - eapply existsb_false_weaken; [|exact Hd].
    intros d' Hm'. apply matches_by_id_field in Hm, Hm'.
    unfold same_key, unique_key. cbn [forallb]. rewrite Hm, Hm'. cbn.
    by rewrite bytes_eqb_refl.
  - cbn [existsb]. rewrite Hm. cbn [orb]. apply IH, Hds.
Qed.

(** The world after a [Delete] whose two driver calls went through. *)
Lemma Delete_Ok_inv fileId w w' :
  Delete fileId w = (Ok tt, w') ->
  exists fileID,
    ObjectIDFromHex fileId = Ok fileID
    /\ filesColl w' = remove_first (matches (by_id fileID)) (filesColl w)
    /\ chunksColl w'
       = List.filter (fun d => negb (matches (by_files_id fileID) d)) (chunksColl w)
    /\ pending w' = drop 2 (pending w).
Proof.
  unfold Delete. destruct (ObjectIDFromHex fileId) as [fileID|e|p|] eqn:Hid;
    try (cbn; discriminate).
  rewrite bind_lift_ok. intros H. exists fileID. split; [reflexivity|].
  unfold mbind, Prog_bind, deleting, DeleteOne, DeleteMany, driver in H.
  destruct w as [fc cc ps].
  destruct ps as [|[e|] [|[e'|] ps]]; cbn in H; try discriminate;
    injection H as <-; cbn; auto.
Qed.

Lemma Delete_quiet fileId fileID w :
  ObjectIDFromHex fileId = Ok fileID -> pending w = [] ->
  Delete fileId w
  = (Ok tt,
     {| filesColl := remove_first (matches (by_id fileID)) (filesColl w);
        chunksColl :=
          List.filter (fun d => negb (matches (by_files_id fileID) d)) (chunksColl w);
        pending := [] |}).
Proof.
  intros Hid Hq. unfold Delete. rewrite Hid, bind_lift_ok.
  destruct w as [fc cc ps]. cbn in Hq. subst ps. reflexivity.
Qed.

(** After a successful [Delete] nothing of the object is left. *)
Lemma Delete_fresh fileId fileID w w' :
  unique_on (unique_key Files) (filesColl w) = true ->
  ObjectIDFromHex fileId = Ok fileID ->
  Delete fileId w = (Ok tt, w') ->
  fresh fileID w' = true.
Proof.
  intros Huniq Hid Hdel.
  destruct (Delete_Ok_inv _ _ _ Hdel) as (fileID' & Hid' & Hf & Hc & _).
  assert (fileID' = fileID) as -> by congruence.
  unfold fresh. rewrite Hf, Hc. apply andb_true_iff. split.
  - apply forallb_forall. intros d Hd. apply negb_true_iff.
    pose proof (existsb_remove_first_unique fileID _ Huniq) as Hnone.
    destruct (matches (by_id fileID) d) eqn:Hm; [|reflexivity].
    rewrite <- Hnone. symmetry. apply existsb_exists. eauto.
  - apply forallb_forall. intros d Hd. apply filter_In in Hd as [_ Hd]. exact Hd.
Qed.

(** ** Looking up an object that is not there *)

Lemma FindOne_through_missing c filter w :
  next_call_ok w -> existsb (matches filter) (docs c w) = false ->
  FindOne c filter w
  = (Err ErrNoDocuments, set_pending (tail (pending w)) w).
Proof.
  intros Hn Hnone. unfold FindOne. rewrite driver_through by exact Hn.
  rewrite docs_set_pending. by rewrite (find_existsb_false _ _ Hnone).
Qed.

Lemma Get_not_found fuel fileId fileID w :
  ObjectIDFromHex fileId = Ok fileID ->
  next_call_ok w ->
  existsb (matches (by_id fileID)) (filesColl w) = false ->
  Get fuel fileId w = (Err ErrNoDocuments, set_pending (tail (pending w)) w).
Proof.
  intros Hid Hn Hnone. unfold Get. rewrite Hid, bind_lift_ok.
  erewrite bind_err; [reflexivity|]. by apply (FindOne_through_missing Files).
Qed.

Lemma FastGet_not_found sched fileId fileID w :
  ObjectIDFromHex fileId = Ok fileID ->
  next_call_ok w ->
  existsb (matches (by_id fileID)) (filesColl w) = false ->
  FastGet sched fileId w = (Err ErrNoDocuments, set_pending (tail (pending w)) w).
Proof.
  intros Hid Hn Hnone. unfold FastGet. rewrite Hid, bind_lift_ok.
  erewrite bind_err; [reflexivity|]. by apply (FindOne_through_missing Files).
Qed.

Lemma Get_malformed fuel fileId w :
  well_formed_id fileId = false ->
  exists e, Get fuel fileId w = (Err e, w) /\ is_InvalidId e = true.
Proof.
  intros Hwf. destruct (ObjectIDFromHex_malformed _ Hwf) as (e & He & Hinv).
  exists e. split; [|exact Hinv]. unfold Get. by rewrite He.
Qed.

Lemma FastGet_malformed sched fileId w :
  well_formed_id fileId = false ->
  exists e, FastGet sched fileId w = (Err e, w) /\ is_InvalidId e = true.
Proof.
  intros Hwf. destruct (ObjectIDFromHex_malformed _ Hwf) as (e & He & Hinv).
  exists e. split; [|exact Hinv]. unfold FastGet. by rewrite He.
Qed.

(** C9.  [Delete] of an object that is not there.  When its driver calls go
    through, [Delete] on a well-formed id returns nil whatever the store
    holds; for an id without manifest and without chunks, both deletions
    remove nothing and the world is unchanged. *)
Theorem Delete_missing_succeeds fileId fileID w :
  ObjectIDFromHex fileId = Ok fileID ->
  pending w = [] ->
  fst (Delete fileId w) = Ok tt
  /\ (fresh fileID w = true ->
      DeleteOne Files [("_id"%string, VObjectID fileID)] w = (Ok 0, w)
      /\ DeleteMany Chunks [("files_id"%string, VObjectID fileID)] w = (Ok 0, w)
      /\ Delete fileId w = (Ok tt, w)).
Proof.
  intros Hid Hq. rewrite (Delete_quiet _ _ _ Hid Hq). split; [reflexivity|].
  intros Hfresh.
  pose proof (remove_first_none _ _ (fresh_files _ _ Hfresh)) as Hf.
  pose proof (filter_none _ _ (fresh_chunks _ _ Hfresh)) as Hc.
  unfold by_id in Hf. unfold by_files_id in Hc.
  split; [|split].
  - unfold DeleteOne. rewrite driver_quiet by exact Hq. cbn [docs].
    rewrite Hf, Z.sub_diag. by rewrite set_files_same.
  - unfold DeleteMany. rewrite driver_quiet by exact Hq. cbn [docs].
    rewrite Hc, Z.sub_diag. by rewrite set_chunks_same.
  - unfold by_id, by_files_id. rewrite Hf, Hc, <- Hq. by destruct w.
Qed.

Lemma Delete_missing_succeeds_witness :
  ObjectIDFromHex sample_hex = Ok sample_id /\ pending empty_world = []
  /\ fresh sample_id empty_world = true
  /\ Delete sample_hex empty_world = (Ok tt, empty_world).
Proof.
  split; [reflexivity|]. split; [reflexivity|]. split; [reflexivity|].
  destruct (Delete_missing_succeeds sample_hex sample_id empty_world
              eq_refl eq_refl) as [_ H].
  apply H. reflexivity.
Defined.

(** ** What the calls do to the collections *)

Lemma keeps_docs_lift {A} (o : outcome A) : keeps_docs (lift o).
Proof. intros w. split; reflexivity. Qed.

Lemma keeps_docs_ret {A} (a : A) : keeps_docs (mret a : Prog A).
Proof. intros w. split; reflexivity. Qed.

Lemma keeps_docs_bind {A B} (m : Prog A) (k : A -> Prog B) :
  keeps_docs m -> (forall a, keeps_docs (k a)) -> keeps_docs (m ≫= k).
Proof.
  intros Hm Hk w. unfold mbind, Prog_bind.
  destruct (Hm w) as [Hf Hc].
  destruct (m w) as [[a|e|p|] w']; cbn [snd] in *; try (split; assumption).
  destruct (Hk a w') as [Hf' Hc']. split; congruence.
Qed.

Lemma keeps_docs_driver {A} (op : Prog A) : keeps_docs op -> keeps_docs (driver op).
Proof.
  intros Hop w. unfold driver.
  destruct (pending w) as [|[e|] fs]; [apply Hop|split; reflexivity|].
  destruct (Hop (set_pending fs w)) as [Hf Hc]. split; assumption.
Qed.

Lemma keeps_docs_FindOne c filter : keeps_docs (FindOne c filter).
Proof.
  apply keeps_docs_driver. intros w.
  destruct (List.find (matches filter) (docs c w)); split; reflexivity.
Qed.

Lemma keeps_docs_get_chunks fuel : forall fileID fileSize chunkSize buffer offset,
  keeps_docs (get_chunks fuel fileID fileSize chunkSize buffer offset).
Proof.
  induction fuel as [|fuel IH]; intros fileID fileSize chunkSize buffer offset.
  - apply keeps_docs_lift.
  - cbn [get_chunks]. destruct (offset <? fileSize); [|apply keeps_docs_ret].
    apply keeps_docs_bind; [apply keeps_docs_lift|]. intros n.
    apply keeps_docs_bind; [apply keeps_docs_FindOne|]. intros doc.
    apply keeps_docs_bind; [apply keeps_docs_lift|]. intros chunkData.
    apply keeps_docs_bind; [apply keeps_docs_lift|]. intros buffer'.
    apply IH.
Qed.

Lemma keeps_docs_collect_chunks fuel :
  forall sched chan fileID chunkSize numChunks buffer i,
    keeps_docs (collect_chunks fuel sched chan fileID chunkSize numChunks buffer i).
Proof.
  induction fuel as [|fuel IH]; intros sched chan fileID chunkSize numChunks buffer i.
  - apply keeps_docs_lift.
  - cbn [collect_chunks]. destruct (i <? numChunks); [|apply keeps_docs_ret].
    destruct (receive sched chan) as [[[chunkIndex sched'] chan']|];
      [|apply keeps_docs_lift].
    apply keeps_docs_bind; [apply keeps_docs_FindOne|]. intros doc.
    apply keeps_docs_bind; [apply keeps_docs_lift|]. intros chunkData.
    apply keeps_docs_bind; [apply keeps_docs_lift|]. intros buffer'.
    apply IH.
Qed.

Lemma keeps_docs_Get fuel fileId : keeps_docs (Get fuel fileId).
Proof.
  unfold Get.
  apply keeps_docs_bind; [apply keeps_docs_lift|]. intros fileID.
  apply keeps_docs_bind; [apply keeps_docs_FindOne|]. intros doc.
  apply keeps_docs_bind; [apply keeps_docs_lift|]. intros fileSize.
  apply keeps_docs_bind; [apply keeps_docs_lift|]. intros chunkSize.
  apply keeps_docs_bind; [apply keeps_docs_lift|]. intros metadata.
  apply keeps_docs_bind; [apply keeps_docs_lift|]. intros buffer.
  apply keeps_docs_bind; [apply keeps_docs_get_chunks|]. intros buffer'.
  apply keeps_docs_ret.
Qed.

Lemma keeps_docs_FastGet sched fileId : keeps_docs (FastGet sched fileId).
Proof.
  unfold FastGet.
  apply keeps_docs_bind; [apply keeps_docs_lift|]. intros fileID.
  apply keeps_docs_bind; [apply keeps_docs_FindOne|]. intros doc.
  apply keeps_docs_bind; [apply keeps_docs_lift|]. intros fileSize.
  apply keeps_docs_bind; [apply keeps_docs_lift|]. intros chunkSize.
  apply keeps_docs_bind; [apply keeps_docs_lift|]. intros metadata.
  apply keeps_docs_bind; [apply keeps_docs_lift|]. intros buffer.
  apply keeps_docs_bind; [apply keeps_docs_lift|]. intros numChunks.
  apply keeps_docs_bind; [apply keeps_docs_lift|]. intros u.
  apply keeps_docs_bind; [apply keeps_docs_lift|]. intros chan.
  apply keeps_docs_bind; [apply keeps_docs_collect_chunks|]. intros buffer'.
  apply keeps_docs_ret.
Qed.

Lemma keeps_files_bind {A B} (m : Prog A) (k : A -> Prog B) :
  keeps_files m -> (forall a, keeps_files (k a)) -> keeps_files (m ≫= k).
Proof.
  intros Hm Hk w. unfold mbind, Prog_bind. specialize (Hm w).
  destruct (m w) as [[a|e|p|] w']; cbn [snd] in *; try assumption.
  rewrite (Hk a w'). exact Hm.
Qed.

Lemma keeps_files_InsertOne_Chunks d : keeps_files (InsertOne Chunks d).
Proof.
  intros w. unfold InsertOne, driver.
  destruct (pending w) as [|[e|] fs]; cbn [docs];
    try destruct (existsb _ _); reflexivity.
Qed.

Lemma keeps_files_put_chunks fuel : forall cs fileID buffer start chunkNumber,
  keeps_files (put_chunks fuel cs fileID buffer start chunkNumber).
Proof.
  induction fuel as [|fuel IH]; intros cs fileID buffer start chunkNumber.
  - intros w. reflexivity.
  - cbn [put_chunks]. destruct (start <? len buffer); [|intros w; reflexivity].
    apply keeps_files_bind; [intros w; reflexivity|]. intros chunkData.
    apply keeps_files_bind; [apply keeps_files_InsertOne_Chunks|]. intros _.
    apply IH.
Qed.

(** [Put] adds its manifest exactly when it returns an id, and touches no
    other manifest. *)
Lemma PutWith_files cs fileID uploadDate (buffer : bytes) metadata w :
  match PutWith cs fileID uploadDate buffer metadata w with
  | (Ok fileId, w') =>
      fileId = Hex.encode fileID
      /\ filesColl w'
         = filesColl w
           ++ [fileDoc fileID (len buffer) cs uploadDate (MD5.sum buffer) metadata]
  | (_, w') => filesColl w' = filesColl w
  end.
Proof.
  unfold PutWith, mbind, Prog_bind.
  pose proof (keeps_files_put_chunks (S (length buffer)) cs fileID buffer 0 0 w)
    as Hloop.
  destruct (put_chunks _ _ _ _ _ _ w) as [[[]|e|p|] w1]; cbn [snd] in Hloop;
    try exact Hloop.
  unfold InsertOne, driver.
  destruct (pending w1) as [|[e|] fs]; cbn [docs filesColl set_pending];
    try destruct (existsb _ (filesColl w1)); cbn; rewrite ?Hloop; auto.
Qed.

Lemma In_remove_first (f : M -> bool) ds d :
  In d (remove_first f ds) -> In d ds.
Proof.
  induction ds as [|d' ds IH]; cbn; [tauto|].
  destruct (f d'); cbn; tauto.
Qed.

(** [Delete] adds no manifest. *)
Lemma Delete_files fileId w d :
  In d (filesColl (snd (Delete fileId w))) -> In d (filesColl w).
Proof.
  unfold Delete. destruct (ObjectIDFromHex fileId) as [fileID|e|p|]; try (cbn; tauto).
  rewrite bind_lift_ok.
  unfold mbind, Prog_bind, deleting, DeleteOne, DeleteMany, driver.
  destruct w as [fc cc ps].
  destruct ps as [|[e|] [|[e'|] ps]]; cbn; try tauto; apply In_remove_first.
Qed.

Lemma manifests_of_mono ids ids' ds ds' :
  (forall d, In d ds' -> In d ds) -> (forall i, In i ids -> In i ids') ->
  manifests_of ids ds -> manifests_of ids' ds'.
Proof.
  intros Hds Hids H d Hd. destruct (H d (Hds d Hd)) as (i & Hi & Hf). eauto.
Qed.

Lemma run_call_manifests c w ids :
  manifests_of ids (filesColl w) ->
  manifests_of (ids ++ snd (run_call c w)) (filesColl (fst (run_call c w))).
Proof.
  intros Hinv. destruct c as [cs fileID uploadDate buffer metadata|fuel fileId|sched fileId|fileId];
    cbn [run_call].
  - pose proof (PutWith_files cs fileID uploadDate buffer metadata w) as Hput.
    destruct (PutWith cs fileID uploadDate buffer metadata w) as [[fileId|e|p|] w'];
      cbn [fst snd].
    + destruct Hput as [_ Hf]. rewrite Hf. intros d Hd.
      apply in_app_or in Hd as [Hd|[<-|[]]].
      * destruct (Hinv d Hd) as (i & Hi & Hfield). exists i. split; [|exact Hfield].
        apply in_or_app. by left.
      * exists fileID. split; [apply in_or_app; right; by left|reflexivity].
    + rewrite Hput, app_nil_r. exact Hinv.
    + rewrite Hput, app_nil_r. exact Hinv.
    + rewrite Hput, app_nil_r. exact Hinv.
  - cbn [fst snd]. rewrite app_nil_r.
    destruct (keeps_docs_Get fuel fileId w) as [-> _]. exact Hinv.
  - cbn [fst snd]. rewrite app_nil_r.
    destruct (keeps_docs_FastGet sched fileId w) as [-> _]. exact Hinv.
  - cbn [fst snd]. rewrite app_nil_r.
    eapply manifests_of_mono; [apply Delete_files| |exact Hinv]. auto.
Qed.

Lemma run_manifests calls : forall w ids,
  manifests_of ids (filesColl w) ->
  manifests_of (ids ++ snd (run calls w)) (filesColl (fst (run calls w))).
Proof.
  induction calls as [|c calls IH]; intros w ids Hinv; cbn [run fst snd].
  - by rewrite app_nil_r.
  - rewrite app_assoc. apply IH, run_call_manifests, Hinv.
Qed.

(** An object id that no [Put] issued has no manifest. *)
Lemma never_issued_no_manifest calls fs fileID :
  ~ In fileID (snd (run calls (set_pending fs empty_world))) ->
  existsb (matches (by_id fileID))
    (filesColl (fst (run calls (set_pending fs empty_world)))) = false.
Proof.
  intros Hnot.
  pose proof (run_manifests calls (set_pending fs empty_world) []) as Hinv.
  cbn [app] in Hinv.
  destruct (existsb _ _) eqn:E; [|reflexivity].
  apply existsb_exists in E as (d & Hd & Hm).
  apply matches_by_id_field in Hm.
  destruct (Hinv ltac:(intros ? []) d Hd) as (i & Hi & Hfield).
  assert (i = fileID) as -> by congruence. contradiction.
Qed.

(** C6, as the code has it.  The reads look an object up by the object id
    that its id string decodes to, and the decoding takes the hexadecimal
    letters in either case.  (1) After a [Delete] that returned nil, a [Get]
    or [FastGet] of the same id whose look-up goes through returns
    [mongo.ErrNoDocuments] (the spec's NotFound).  (2) After any history of
    calls on an empty store, the same holds for every well-formed id that
    decodes to an object id no [Put] has issued; (3) in particular for
    every id string in the form that [Put] returns, which is lower case,
    that no [Put] has returned.  (4) On a malformed id, [Get] and [FastGet]
    return the error of [ObjectIDFromHex] (the spec's InvalidId) and leave
    the world as it was: no driver call is made. *)
Theorem lookup_failures :
  (forall w fileId w' fuel sched,
      unique_on (unique_key Files) (filesColl w) = true ->
      Delete fileId w = (Ok tt, w') ->
      next_call_ok w' ->
      Get fuel fileId w' = (Err ErrNoDocuments, set_pending (tail (pending w')) w')
      /\ FastGet sched fileId w'
         = (Err ErrNoDocuments, set_pending (tail (pending w')) w'))
  /\ (forall calls fs fileId fileID fuel sched,
      let w := fst (run calls (set_pending fs empty_world)) in
      ObjectIDFromHex fileId = Ok fileID ->
      ~ In fileID (snd (run calls (set_pending fs empty_world))) ->
      next_call_ok w ->
      Get fuel fileId w = (Err ErrNoDocuments, set_pending (tail (pending w)) w)
      /\ FastGet sched fileId w
         = (Err ErrNoDocuments, set_pending (tail (pending w)) w))
  /\ (forall calls fs fileID fuel sched,
      let w := fst (run calls (set_pending fs empty_world)) in
      length fileID = 12%nat ->
      ~ In (Hex.encode fileID)
          (map Hex.encode (snd (run calls (set_pending fs empty_world)))) ->
      next_call_ok w ->
      Get fuel (Hex.encode fileID) w
      = (Err ErrNoDocuments, set_pending (tail (pending w)) w)
      /\ FastGet sched (Hex.encode fileID) w
         = (Err ErrNoDocuments, set_pending (tail (pending w)) w))
  /\ (forall fileId w fuel sched,
      well_formed_id fileId = false ->
      exists e,
        is_InvalidId e = true
        /\ Get fuel fileId w = (Err e, w)
        /\ FastGet sched fileId w = (Err e, w)).
Proof.
  split; [|split; [|split]].
  - intros w fileId w' fuel sched Huniq Hdel Hnext.
    destruct (Delete_Ok_inv _ _ _ Hdel) as (fileID & Hid & _).
    pose proof (Delete_fresh _ _ _ _ Huniq Hid Hdel) as Hfresh.
    apply fresh_files in Hfresh.
    split; [by apply (Get_not_found _ _ fileID)|by apply (FastGet_not_found _ _ fileID)].
  - intros calls fs fileId fileID fuel sched w Hid Hnot Hnext.
    pose proof (never_issued_no_manifest calls fs fileID Hnot) as Hnone.
    split; [by apply (Get_not_found _ _ fileID)|by apply (FastGet_not_found _ _ fileID)].
  - intros calls fs fileID fuel sched w Hlen Hnot Hnext.
    pose proof (ObjectIDFromHex_Hex fileID Hlen) as Hid.
    assert (Hnot' : ~ In fileID (snd (run calls (set_pending fs empty_world))))
      by (intros Hin; apply Hnot, in_map, Hin).
    pose proof (never_issued_no_manifest calls fs fileID Hnot') as Hnone.
    split; [by apply (Get_not_found _ _ fileID)|by apply (FastGet_not_found _ _ fileID)].
  - intros fileId w fuel sched Hwf.
    destruct (ObjectIDFromHex_malformed _ Hwf) as (e & He & Hinv).
    exists e. split; [exact Hinv|].
    unfold Get, FastGet. rewrite He. split; reflexivity.
Qed.

Lemma lookup_failures_witness :
  (unique_on (unique_key Files) (filesColl sample_world) = true
   /\ fst (Delete sample_hex sample_world) = Ok tt
   /\ fst (Get 4 sample_hex (snd (Delete sample_hex sample_world)))
      = Err ErrNoDocuments)
  /\ (ObjectIDFromHex "75A1B2C3D4E5F60718293A4B" = Ok other_id
      /\ ~ In other_id
             (snd (run [CallPut 5 sample_id 0 sample_buffer (Some sample_metadata)]
                     (set_pending [] empty_world)))
      /\ fst (Get 4 "75A1B2C3D4E5F60718293A4B"
                (fst (run [CallPut 5 sample_id 0 sample_buffer (Some sample_metadata)]
                        (set_pending [] empty_world))))
         = Err ErrNoDocuments)
  /\ (length other_id = 12%nat
      /\ ~ In (Hex.encode other_id)
             (map Hex.encode
                (snd (run [CallPut 5 sample_id 0 sample_buffer (Some sample_metadata)]
                        (set_pending [] empty_world))))
      /\ fst (FastGet [1] other_hex
                (fst (run [CallPut 5 sample_id 0 sample_buffer (Some sample_metadata)]
                        (set_pending [] empty_world))))
         = Err ErrNoDocuments)
  /\ (well_formed_id "not-an-object-id" = false
      /\ exists e, Get 4 "not-an-object-id" sample_world = (Err e, sample_world)).
Proof.
  destruct lookup_failures as (Hdeleted & Hnever & Hlower & Hmalformed).
  split; [|split; [|split]].
  - assert (Huniq : unique_on (unique_key Files) (filesColl sample_world) = true)
      by (vm_compute; reflexivity).
    assert (Hdel : Delete sample_hex sample_world
                   = (Ok tt, snd (Delete sample_hex sample_world)))
      by (vm_compute; reflexivity).
    split; [exact Huniq|]. split; [by rewrite Hdel|].
    destruct (Hdeleted sample_world sample_hex _ 4%nat [] Huniq Hdel) as [Hget _].
    + vm_compute. exact I.
    + by rewrite Hget.
  - assert (Hid : ObjectIDFromHex "75A1B2C3D4E5F60718293A4B" = Ok other_id)
      by reflexivity.
    assert (Hnot : ~ In other_id
             (snd (run [CallPut 5 sample_id 0 sample_buffer (Some sample_metadata)]
                     (set_pending [] empty_world)))).
    { vm_compute. intros [H|[]]. discriminate H. }
    split; [exact Hid|]. split; [exact Hnot|].
    destruct (Hnever [CallPut 5 sample_id 0 sample_buffer (Some sample_metadata)]
                [] "75A1B2C3D4E5F60718293A4B"%string other_id 4%nat [] Hid Hnot)
      as [Hget _].
    + vm_compute. exact I.
    + by rewrite Hget.
  - assert (Hnot : ~ In (Hex.encode other_id)
             (map Hex.encode
                (snd (run [CallPut 5 sample_id 0 sample_buffer (Some sample_metadata)]
                        (set_pending [] empty_world))))).
    { vm_compute. intros [H|[]]. discriminate H. }
    split; [reflexivity|]. split; [exact Hnot|].
    destruct (Hlower [CallPut 5 sample_id 0 sample_buffer (Some sample_metadata)]
                [] other_id 4%nat [1] eq_refl Hnot) as [_ Hfast].
    + vm_compute. exact I.
    + exact (f_equal fst Hfast).
  - split; [reflexivity|].
    destruct (Hmalformed "not-an-object-id"%string sample_world 4%nat [] eq_refl)
      as (e & _ & Hget & _).
    exists e. exact Hget.
Defined.

(** C6, as the claim has it, fails.  [Put] returns the id of the sample
    object in lower case.  Its upper-case spelling is another string, well
    formed and returned by no [Put], and yet [Get] and [FastGet] of it
    return the object, where the claim has NotFound. *)
Lemma uppercase_id_reads_object :
  let calls := [CallPut 5 sample_id 0 sample_buffer (Some sample_metadata)] in
  let w := fst (run calls empty_world) in
  fst (PutWith 5 sample_id 0 sample_buffer (Some sample_metadata) empty_world)
  = Ok sample_hex
  /\ map Hex.encode (snd (run calls empty_world)) = [sample_hex]
  /\ well_formed_id "65A1B2C3D4E5F60718293A4B" = true
  /\ ~ In "65A1B2C3D4E5F60718293A4B"%string
         (map Hex.encode (snd (run calls empty_world)))
  /\ Get 4 "65A1B2C3D4E5F60718293A4B" w = (Ok (sample_buffer, sample_metadata), w)
  /\ FastGet [] "65A1B2C3D4E5F60718293A4B" w
     = (Ok (sample_buffer, sample_metadata), w).
Proof.
  cbv zeta. split; [vm_compute; reflexivity|]. split; [vm_compute; reflexivity|].
  split; [reflexivity|]. split.
  { vm_compute. intros [H|[]]. discriminate H. }
  split; vm_compute; reflexivity.
Qed.

(** ** Termination of the loop of Get *)

Lemma FindOne_inv c filter w o w' :
  FindOne c filter w = (o, w') ->
  filesColl w' = filesColl w /\ chunksColl w' = chunksColl w
  /\ match o with
     | Ok d => List.find (matches filter) (docs c w) = Some d
     | Err _ => True
     | _ => False
     end.
Proof.
  unfold FindOne, driver.
  destruct (pending w) as [|[e|] fs]; rewrite ?docs_set_pending;
    try destruct (List.find (matches filter) (docs c w)) eqn:Hf;
    intros [= <- <-]; auto.
Qed.



Lemma copy_at_Ok_offset buffer offset src buffer' :
  copy_at buffer offset src = Ok buffer' -> 0 <= offset <= len buffer.
Proof.
  unfold copy_at, slice.
  destruct (Z.leb_spec 0 offset); [|discriminate].
  destruct (Z.leb_spec offset (len buffer)); [|discriminate]. lia.
Qed.













(** ** Missing and duplicate chunks *)

Lemma length_copy (dst src : bytes) : length (copy dst src) = length dst.
Proof. unfold copy. rewrite length_app, length_take, length_drop. lia. Qed.

Lemma copy_at_length (dst src : bytes) offset :
  0 <= offset <= len dst ->
  exists dst', copy_at dst offset src = Ok dst' /\ length dst' = length dst.
Proof.
  intros Hoff. unfold copy_at.
  replace offset with (Z.of_nat (Z.to_nat offset)) by lia.
  rewrite slice_from_ok by (unfold len in *; lia).
  eexists. split; [reflexivity|].
  rewrite length_app, length_take, length_copy, length_drop, Nat2Z.id.
  unfold len in *. lia.
Qed.


Section missing_chunk.
Variables (fileID : ObjectID) (fileSize chunkSize : Z) (w : World) (k : nat).
Hypothesis Hquiet : pending w = [].
Hypothesis Hcs : 0 < chunkSize.
Hypothesis Hsize : 0 <= fileSize.
Hypothesis Hov : fileSize + chunkSize < 2 ^ 63.
Hypothesis Hk : Z.of_nat k < num_chunks chunkSize fileSize.
Hypothesis Hmissing :
  List.find (matches (by_chunk fileID (Z.of_nat k))) (chunksColl w) = None.




End missing_chunk.






Lemma value_eqb_trans_l a b c :
  value_eqb a b = true -> value_eqb a c = true -> value_eqb b c = true.
Proof.
  destruct a, b; cbn; try discriminate; intros Hab; destruct c; cbn;
    try discriminate; intros Hac;
    repeat match goal with
      | H : (_ =? _) = true |- _ => apply Z.eqb_eq in H
      | H : String.eqb _ _ = true |- _ => apply String.eqb_eq in H
      | H : Bool.eqb _ _ = true |- _ => apply Bool.eqb_prop in H
      | H : bytes_eqb _ _ = true |- _ => apply bytes_eqb_eq in H
      end; subst;
    first [reflexivity | apply Z.eqb_refl | apply String.eqb_refl
          | apply bytes_eqb_refl | by destruct b0 | by destruct b1 | idtac].
Qed.

Lemma matches_by_chunk_same_key fileID n (d d' : M) :
  matches (by_chunk fileID n) d = true ->
  matches (by_chunk fileID n) d' = true ->
  same_key (unique_key Chunks) d d' = true.
Proof.
  unfold matches, by_chunk, same_key, unique_key. cbn [forallb fst snd].
  rewrite !andb_true_iff. intros (H1 & H2 & _) (H1' & H2' & _).
  split; [|split; [|reflexivity]]; eapply value_eqb_trans_l; eassumption.
Qed.

(** Under the unique index an index is stored at most once. *)
Lemma unique_chunk_count fileID n w :
  unique_on (unique_key Chunks) (chunksColl w) = true ->
  (chunk_count fileID n w <= 1)%nat.
Proof.
  unfold chunk_count. induction (chunksColl w) as [|d ds IH];
    cbn [unique_on List.filter]; [cbn; lia|].
  rewrite andb_true_iff, negb_true_iff. intros [Hd Hds].
  destruct (matches (by_chunk fileID n) d) eqn:Hm; [|by apply IH].
  assert (Hnone : existsb (matches (by_chunk fileID n)) ds = false).
  { eapply existsb_false_weaken; [|exact Hd].
    intros d' Hm'. by apply (matches_by_chunk_same_key fileID n). }
  assert (Hfilter : List.filter (matches (by_chunk fileID n)) ds = []).
  { clear -Hnone. induction ds as [|d' ds IH]; [reflexivity|].
    cbn [existsb List.filter] in *.
    destruct (matches (by_chunk fileID n) d'); [discriminate|].
    by apply IH. }
  rewrite Hfilter. cbn. lia.
Qed.





Example md5_empty :
  Hex.encode (MD5.sum []) = "d41d8cd98f00b204e9800998ecf8427e"%string.
Proof. vm_compute. reflexivity. Qed.

Example md5_abc :
  Hex.encode (MD5.sum (bytes_of_string "abc"))
  = "900150983cd24fb0d6963f7d28e17f72"%string.
Proof. vm_compute. reflexivity. Qed.

Example md5_two_blocks :
  Hex.encode (MD5.sum (bytes_of_string
    "12345678901234567890123456789012345678901234567890123456789012345678901234567890"))
  = "57edf4a22be3c955ac49da2e2107b67a"%string.
Proof. vm_compute. reflexivity. Qed.

(** * Further properties *)

(** ** The partition loses nothing *)

Lemma concat_chunk_data cs (buffer : bytes) (m : nat) : forall i : nat,
  concat (map (chunk_data cs buffer) (seq i m))
  = take (m * Z.to_nat cs) (drop (i * Z.to_nat cs) buffer).
Proof.
  induction m as [|m IH]; intros i; [reflexivity|].
  cbn [seq map concat]. rewrite IH. unfold chunk_data.
  replace (S i * Z.to_nat cs)%nat with (i * Z.to_nat cs + Z.to_nat cs)%nat by lia.
  rewrite <- drop_drop. rewrite take_take_drop. f_equal; lia.
Qed.

Lemma split_concat cs (buffer : bytes) :
  0 < cs -> concat (map snd (split cs buffer)) = buffer.
Proof.
  intros Hcs. unfold split. rewrite map_map. cbn [snd].
  rewrite concat_chunk_data. rewrite Nat.mul_0_l, drop_0.
  apply take_ge.
  pose proof (len_nonneg buffer) as HL.
  pose proof (num_chunks_nonneg cs _ Hcs HL) as HN.
  destruct (Z.lt_ge_cases (num_chunks cs (len buffer) * cs) (len buffer)) as [Hlt|Hge].
  - apply (num_chunks_lt cs (len buffer) _ Hcs HL HN) in Hlt. lia.
  - unfold len in *. nia.
Qed.

(** The chunk documents that [Put] writes when its inserts go through come
    after the documents the collection held, in the order of their numbers:
    the document at place [i] is the chunk [(fileID, i)].  Their bytes, put
    end to end in that order, are the buffer. *)
Theorem Put_chunks_concat cs fileID uploadDate (buffer : bytes) metadata w :
  0 < cs -> len buffer + cs < 2 ^ 63 ->
  fresh fileID w = true ->
  through (S (Z.to_nat (num_chunks cs (len buffer)))) (pending w) = true ->
  exists ds : list M,
    chunksColl (snd (PutWith cs fileID uploadDate buffer metadata w))
    = chunksColl w ++ ds
    /\ (forall (i : nat) d,
          ds !! i = Some d -> matches (by_chunk fileID (Z.of_nat i)) d = true)
    /\ concat (map chunk_bytes ds) = buffer.
Proof.
  intros Hcs Hov Hfresh Hthr.
  rewrite PutWith_through by assumption. cbn [snd after_put chunksColl].
  exists (chunk_docs cs fileID buffer). split; [reflexivity|]. split.
  - intros i d. unfold chunk_docs. rewrite lookup_map.
    destruct (split cs buffer !! i) as [[n data]|] eqn:Hi; [|discriminate].
    destruct (lookup_split _ _ _ _ _ Hi) as (-> & _ & _).
    intros [= <-]. cbn [fst snd].
    by rewrite matches_by_chunk_chunkDoc, bytes_eqb_refl, Z.eqb_refl.
  - unfold chunk_docs. rewrite map_map.
    rewrite (map_ext _ snd); [by apply split_concat|].
    intros [n data]. reflexivity.
Qed.

Lemma Put_chunks_concat_witness :
  0 < 5 /\ len sample_buffer + 5 < 2 ^ 63
  /\ fresh sample_id empty_world = true
  /\ through (S (Z.to_nat (num_chunks 5 (len sample_buffer)))) (pending empty_world)
     = true
  /\ exists ds : list M,
       chunksColl (snd (PutWith 5 sample_id 0 sample_buffer (Some sample_metadata)
                          empty_world)) = ds
       /\ length ds = 3%nat
       /\ concat (map chunk_bytes ds) = sample_buffer.
Proof.
  assert (H5 : 0 < 5) by lia.
  assert (Hov : len sample_buffer + 5 < 2 ^ 63) by (vm_compute; reflexivity).
  split; [exact H5|]. split; [exact Hov|]. split; [reflexivity|].
  split; [reflexivity|].
  destruct (Put_chunks_concat 5 sample_id 0 sample_buffer (Some sample_metadata)
              empty_world H5 Hov eq_refl eq_refl) as (ds & Hds & _ & Hcat).
  exists ds. split; [exact Hds|]. split; [|exact Hcat].
  change (length ds) with (length (chunksColl empty_world ++ ds)).
  rewrite <- Hds. vm_compute. reflexivity.
Defined.

(** The id that [Put] returns is the hexadecimal form of its object id: it
    is well formed, and [ObjectIDFromHex] reads the object id back from it.
    This holds for every [Put] that returns, whatever the store holds. *)
Theorem Put_returns_well_formed_id cs fileID uploadDate (buffer : bytes)
    metadata w fileId w' :
  length fileID = 12%nat ->
  PutWith cs fileID uploadDate buffer metadata w = (Ok fileId, w') ->
  fileId = Hex.encode fileID
  /\ well_formed_id fileId = true
  /\ ObjectIDFromHex fileId = Ok fileID.
Proof.
  intros Hid Hput.
  pose proof (PutWith_files cs fileID uploadDate buffer metadata w) as H.
  rewrite Hput in H. destruct H as [-> _].
  split; [reflexivity|].
  pose proof (ObjectIDFromHex_Hex fileID Hid) as Hhex.
  split; [|exact Hhex]. apply ObjectIDFromHex_well_formed. eauto.
Qed.

Lemma Put_returns_well_formed_id_witness :
  length sample_id = 12%nat
  /\ PutWith 5 sample_id 0 sample_buffer (Some sample_metadata) empty_world
     = (Ok sample_hex, sample_world)
  /\ well_formed_id sample_hex = true.
Proof.
  assert (Hput : PutWith 5 sample_id 0 sample_buffer (Some sample_metadata) empty_world
                 = (Ok sample_hex, sample_world)) by (vm_compute; reflexivity).
  split; [reflexivity|]. split; [exact Hput|].
  destruct (Put_returns_well_formed_id 5 sample_id 0 sample_buffer
              (Some sample_metadata) empty_world sample_hex sample_world
              eq_refl Hput) as (_ & Hwf & _).
  exact Hwf.
Defined.

(** ** What the reads do and return *)

(** [Get] and [FastGet] change no document of either collection, whatever
    they return. *)
Theorem reads_leave_store fuel sched fileId w :
  filesColl (snd (Get fuel fileId w)) = filesColl w
  /\ chunksColl (snd (Get fuel fileId w)) = chunksColl w
  /\ filesColl (snd (FastGet sched fileId w)) = filesColl w
  /\ chunksColl (snd (FastGet sched fileId w)) = chunksColl w.
Proof.
  destruct (keeps_docs_Get fuel fileId w) as [H1 H2].
  destruct (keeps_docs_FastGet sched fileId w) as [H3 H4].
  auto.
Qed.

Lemma bind_Ok_inv {A B} (m : Prog A) (k : A -> Prog B) w b w' :
  (m ≫= k) w = (Ok b, w') ->
  exists a w1, m w = (Ok a, w1) /\ k a w1 = (Ok b, w').
Proof.
  unfold mbind, Prog_bind. destruct (m w) as [[a|e|p|] w1]; try discriminate.
  eauto.
Qed.

Lemma lift_Ok_inv {A} (o : outcome A) w a w' :
  lift o w = (Ok a, w') -> o = Ok a /\ w' = w.
Proof. unfold lift. by intros [= -> ->]. Qed.

Lemma copy_at_Ok_length (dst src : bytes) offset dst' :
  copy_at dst offset src = Ok dst' -> length dst' = length dst.
Proof.
  intros Hcopy. pose proof (copy_at_Ok_offset _ _ _ _ Hcopy) as Hoff.
  destruct (copy_at_length dst src offset Hoff) as (dst'' & Hcopy' & Hlen).
  congruence.
Qed.

Lemma get_chunks_length fuel :
  forall fileID fileSize chunkSize (buffer : bytes) offset w b w',
    get_chunks fuel fileID fileSize chunkSize buffer offset w = (Ok b, w') ->
    length b = length buffer.
Proof.
  induction fuel as [|fuel IH];
    intros fileID fileSize chunkSize buffer offset w b w' H; [discriminate|].
  cbn [get_chunks] in H. destruct (offset <? fileSize).
  - apply bind_Ok_inv in H as (n & w1 & _ & H).
    apply bind_Ok_inv in H as (doc & w2 & _ & H).
    apply bind_Ok_inv in H as (chunkData & w3 & _ & H).
    apply bind_Ok_inv in H as (buffer' & w4 & Hcopy & H).
    apply lift_Ok_inv in Hcopy as [Hcopy _].
    apply copy_at_Ok_length in Hcopy. apply IH in H. congruence.
  - by injection H as <- _.
Qed.

Lemma collect_chunks_length fuel :
  forall sched chan fileID chunkSize numChunks (buffer : bytes) i w b w',
    collect_chunks fuel sched chan fileID chunkSize numChunks buffer i w
    = (Ok b, w') ->
    length b = length buffer.
Proof.
  induction fuel as [|fuel IH];
    intros sched chan fileID chunkSize numChunks buffer i w b w' H;
    [discriminate|].
  cbn [collect_chunks] in H. destruct (i <? numChunks).
  - destruct (receive sched chan) as [[[chunkIndex sched'] chan']|];
      [|discriminate].
    apply bind_Ok_inv in H as (doc & w2 & _ & H).
    apply bind_Ok_inv in H as (chunkData & w3 & _ & H).
    apply bind_Ok_inv in H as (buffer' & w4 & Hcopy & H).
    apply lift_Ok_inv in Hcopy as [Hcopy _].
    apply copy_at_Ok_length in Hcopy. apply IH in H. congruence.
  - by injection H as <- _.
Qed.

Lemma assert_int64_Ok (doc : M) k z :
  assert_int64 doc k = Ok z -> doc !! k = Some (VInt64 z).
Proof.
  unfold assert_int64. destruct (doc !! k) as [[]|]; try discriminate.
  by intros [= ->].
Qed.

Lemma assert_M_Ok (doc : M) k m :
  assert_M doc k = Ok m -> doc !! k = Some (VDocument m).
Proof.
  unfold assert_M. destruct (doc !! k) as [[]|]; try discriminate.
  by intros [= ->].
Qed.

Lemma make_bytes_Ok n (buffer : bytes) :
  make_bytes n = Ok buffer -> len buffer = n.
Proof.
  unfold make_bytes. destruct (Z.leb_spec 0 n); [|discriminate].
  intros [= <-]. unfold len. rewrite length_replicate. lia.
Qed.

(** Whatever the chunks hold, a buffer that [Get] or [FastGet] returns has
    the length that the manifest records, and the metadata returned is the
    metadata of the manifest: a chunk that is too long is cut and one that
    is too short leaves zeros, but the buffer never grows or shrinks. *)
Theorem reads_return_recorded_length fileId w data md w' :
  (forall fuel, Get fuel fileId w = (Ok (data, md), w') ->
     exists fileID (doc : M),
       ObjectIDFromHex fileId = Ok fileID
       /\ List.find (matches (by_id fileID)) (filesColl w) = Some doc
       /\ doc !! "length"%string = Some (VInt64 (len data))
       /\ doc !! "metadata"%string = Some (VDocument md))
  /\ (forall sched, FastGet sched fileId w = (Ok (data, md), w') ->
     exists fileID (doc : M),
       ObjectIDFromHex fileId = Ok fileID
       /\ List.find (matches (by_id fileID)) (filesColl w) = Some doc
       /\ doc !! "length"%string = Some (VInt64 (len data))
       /\ doc !! "metadata"%string = Some (VDocument md)).
Proof.
  split.
  - intros fuel H. unfold Get in H.
    apply bind_Ok_inv in H as (fileID & w1 & Hid & H).
    apply lift_Ok_inv in Hid as [Hid ->].
    apply bind_Ok_inv in H as (doc & w2 & Hfind & H).
    apply FindOne_inv in Hfind as (_ & _ & Hfind). cbn [docs] in Hfind.
    apply bind_Ok_inv in H as (fileSize & w3 & Hlen & H).
    apply lift_Ok_inv in Hlen as [Hlen ->]. apply assert_int64_Ok in Hlen.
    apply bind_Ok_inv in H as (chunkSize & w4 & _ & H).
    apply bind_Ok_inv in H as (metadata & w5 & Hmeta & H).
    apply lift_Ok_inv in Hmeta as [Hmeta _]. apply assert_M_Ok in Hmeta.
    apply bind_Ok_inv in H as (buffer & w6 & Hmake & H).
    apply lift_Ok_inv in Hmake as [Hmake _]. apply make_bytes_Ok in Hmake.
    apply bind_Ok_inv in H as (buffer' & w7 & Hloop & H).
    apply get_chunks_length in Hloop.
    injection H as <- <- _.
    exists fileID, doc. repeat split; try assumption.
    rewrite Hlen. unfold len in *. do 2 f_equal. lia.
  - intros sched H. unfold FastGet in H.
    apply bind_Ok_inv in H as (fileID & w1 & Hid & H).
    apply lift_Ok_inv in Hid as [Hid ->].
    apply bind_Ok_inv in H as (doc & w2 & Hfind & H).
    apply FindOne_inv in Hfind as (_ & _ & Hfind). cbn [docs] in Hfind.
    apply bind_Ok_inv in H as (fileSize & w3 & Hlen & H).
    apply lift_Ok_inv in Hlen as [Hlen ->]. apply assert_int64_Ok in Hlen.
    apply bind_Ok_inv in H as (chunkSize & w4 & _ & H).
    apply bind_Ok_inv in H as (metadata & w5 & Hmeta & H).
    apply lift_Ok_inv in Hmeta as [Hmeta _]. apply assert_M_Ok in Hmeta.
    apply bind_Ok_inv in H as (buffer & w6 & Hmake & H).
    apply lift_Ok_inv in Hmake as [Hmake _]. apply make_bytes_Ok in Hmake.
    apply bind_Ok_inv in H as (numChunks & w7 & _ & H).
    apply bind_Ok_inv in H as (u & w8 & _ & H).
    apply bind_Ok_inv in H as (chan & w9 & _ & H).
    apply bind_Ok_inv in H as (buffer' & w10 & Hloop & H).
    apply collect_chunks_length in Hloop.
    injection H as <- <- _.
    exists fileID, doc. repeat split; try assumption.
    rewrite Hlen. unfold len in *. do 2 f_equal. lia.
Qed.

Lemma reads_return_recorded_length_witness :
  Get 3 sample_hex gap_world = (Ok ([x61; x62], sample_metadata), gap_world)
  /\ exists doc : M,
       List.find (matches (by_id sample_id)) (filesColl gap_world) = Some doc
       /\ doc !! "length"%string = Some (VInt64 2).
Proof.
  assert (Hget : Get 3 sample_hex gap_world
                 = (Ok ([x61; x62], sample_metadata), gap_world))
    by (vm_compute; reflexivity).
  split; [exact Hget|].
  destruct (reads_return_recorded_length sample_hex gap_world [x61; x62]
              sample_metadata gap_world) as [H _].
  destruct (H 3%nat Hget) as (fileID & doc & Hid & Hfind & Hlen & _).
  assert (Hs : ObjectIDFromHex sample_hex = Ok sample_id) by reflexivity.
  rewrite Hs in Hid. injection Hid as <-.
  exists doc. split; [exact Hfind|exact Hlen].
Defined.

(** ** The unique indexes are kept *)

Lemma bytes_eqb_sym (a b : bytes) : bytes_eqb a b = bytes_eqb b a.
Proof.
  destruct (bytes_eqb a b) eqn:Hab, (bytes_eqb b a) eqn:Hba; try reflexivity.
  - apply bytes_eqb_eq in Hab. subst. by rewrite bytes_eqb_refl in Hba.
  - apply bytes_eqb_eq in Hba. subst. by rewrite bytes_eqb_refl in Hab.
Qed.

Lemma value_eqb_sym a b : value_eqb a b = value_eqb b a.
Proof.
  destruct a, b; cbn; try reflexivity;
    first [apply Z.eqb_sym | apply String.eqb_sym | apply bytes_eqb_sym
          | by destruct b, b0].
Qed.

Lemma same_key_sym ks (d1 d2 : M) : same_key ks d1 d2 = same_key ks d2 d1.
Proof.
  unfold same_key. induction ks as [|k ks IH]; [reflexivity|].
  cbn [forallb]. by rewrite IH, value_eqb_sym.
Qed.

Lemma unique_on_snoc ks (ds : list M) (d : M) :
  unique_on ks ds = true -> existsb (same_key ks d) ds = false ->
  unique_on ks (ds ++ [d]) = true.
Proof.
  induction ds as [|d0 ds IH]; cbn [unique_on existsb app]; [reflexivity|].
  rewrite andb_true_iff, negb_true_iff, orb_false_iff.
  intros [Hd0 Hds] [Hdd0 Hd]. apply andb_true_iff. split; [|by apply IH].
  apply negb_true_iff. rewrite existsb_app, Hd0. cbn [existsb orb].
  by rewrite same_key_sym, Hdd0.
Qed.

Lemma existsb_remove_first (f g : M -> bool) ds :
  existsb g ds = false -> existsb g (remove_first f ds) = false.
Proof.
  induction ds as [|d ds IH]; cbn [existsb remove_first]; [reflexivity|].
  rewrite orb_false_iff. intros [Hd Hds].
  destruct (f d); [exact Hds|]. cbn [existsb]. by rewrite Hd, IH.
Qed.

Lemma existsb_filter (f g : M -> bool) ds :
  existsb g ds = false -> existsb g (List.filter f ds) = false.
Proof.
  induction ds as [|d ds IH]; cbn [existsb List.filter]; [reflexivity|].
  rewrite orb_false_iff. intros [Hd Hds].
  destruct (f d); [|by apply IH]. cbn [existsb]. by rewrite Hd, IH.
Qed.

Lemma unique_on_remove_first ks (f : M -> bool) ds :
  unique_on ks ds = true -> unique_on ks (remove_first f ds) = true.
Proof.
  induction ds as [|d ds IH]; cbn [unique_on remove_first]; [reflexivity|].
  rewrite andb_true_iff, negb_true_iff. intros [Hd Hds].
  destruct (f d); [exact Hds|]. cbn [unique_on].
  by rewrite existsb_remove_first, IH.
Qed.

Lemma unique_on_filter ks (f : M -> bool) ds :
  unique_on ks ds = true -> unique_on ks (List.filter f ds) = true.
Proof.
  induction ds as [|d ds IH]; cbn [unique_on List.filter]; [reflexivity|].
  rewrite andb_true_iff, negb_true_iff. intros [Hd Hds].
  destruct (f d); [|by apply IH]. cbn [unique_on].
  by rewrite existsb_filter, IH.
Qed.

Lemma indexed_docs w w' :
  filesColl w' = filesColl w -> chunksColl w' = chunksColl w ->
  indexed w = true -> indexed w' = true.
Proof. unfold indexed. by intros -> ->. Qed.

Lemma bind_invariant {A B} (P : World -> Prop) (m : Prog A) (k : A -> Prog B) :
  (forall w, P w -> P (snd (m w))) ->
  (forall a w, P w -> P (snd (k a w))) ->
  forall w, P w -> P (snd ((m ≫= k) w)).
Proof.
  intros Hm Hk w Hw. unfold mbind, Prog_bind. specialize (Hm w Hw).
  destruct (m w) as [[a|e|p|] w1]; cbn [snd] in *; auto.
Qed.

Lemma driver_invariant {A} (P : World -> Prop) (op : Prog A) :
  (forall fs w, P w -> P (set_pending fs w)) ->
  (forall w, P w -> P (snd (op w))) ->
  forall w, P w -> P (snd (driver op w)).
Proof.
  intros Hp Hop w Hw. unfold driver.
  destruct (pending w) as [|[e|] fs]; cbn [snd]; auto.
Qed.

Lemma indexed_set_pending fs w : indexed w = true -> indexed (set_pending fs w) = true.
Proof. by apply indexed_docs. Qed.

Lemma InsertOne_indexed c (d : M) w :
  indexed w = true -> indexed (snd (InsertOne c d w)) = true.
Proof.
  apply (driver_invariant (fun w => indexed w = true)).
  - intros fs w0. apply indexed_set_pending.
  - intros w0 Hw0.
    destruct (existsb (same_key (unique_key c) d) (docs c w0)) eqn:Hdup;
      [exact Hw0|]. cbn [snd].
    unfold indexed in *. apply andb_true_iff in Hw0 as [Hf Hc].
    destruct c; cbn [set_docs filesColl chunksColl docs] in *.
    + by rewrite unique_on_snoc.
    + by rewrite Hf, unique_on_snoc.
Qed.

Lemma put_chunks_indexed fuel : forall cs fileID buffer start chunkNumber w,
  indexed w = true ->
  indexed (snd (put_chunks fuel cs fileID buffer start chunkNumber w)) = true.
Proof.
  induction fuel as [|fuel IH]; intros cs fileID buffer start chunkNumber;
    [by intros w|].
  cbn [put_chunks]. destruct (start <? len buffer); [|by intros w].
  apply (bind_invariant (fun w => indexed w = true)); [by intros w|].
  intros chunkData.
  apply (bind_invariant (fun w => indexed w = true)).
  - intros w. apply InsertOne_indexed.
  - intros _. apply IH.
Qed.

Lemma PutWith_indexed cs fileID uploadDate buffer metadata w :
  indexed w = true ->
  indexed (snd (PutWith cs fileID uploadDate buffer metadata w)) = true.
Proof.
  unfold PutWith. revert w.
  apply (bind_invariant (fun w => indexed w = true)).
  - intros w. apply put_chunks_indexed.
  - intros _.
    apply (bind_invariant (fun w => indexed w = true)); [|by intros s w].
    intros w. apply InsertOne_indexed.
Qed.

Lemma snd_deleting {A} (m : Prog A) w : snd (deleting m w) = snd (m w).
Proof. unfold deleting. by destruct (m w) as [[a|e|p|] w']. Qed.

Lemma Delete_indexed fileId w :
  indexed w = true -> indexed (snd (Delete fileId w)) = true.
Proof.
  unfold Delete. revert w.
  apply (bind_invariant (fun w => indexed w = true)); [by intros w|].
  intros fileID.
  apply (bind_invariant (fun w => indexed w = true)).
  { intros w Hw. rewrite snd_deleting. revert w Hw.
    apply (driver_invariant (fun w => indexed w = true)).
    - intros fs w. apply indexed_set_pending.
    - intros w Hw. cbn [snd docs set_docs]. unfold indexed in *.
      apply andb_true_iff in Hw as [Hf Hc]. cbn [filesColl chunksColl].
      by rewrite unique_on_remove_first, Hc. }
  intros _.
  apply (bind_invariant (fun w => indexed w = true)); [|by intros u w].
  intros w Hw. rewrite snd_deleting. revert w Hw.
  apply (driver_invariant (fun w => indexed w = true)).
  - intros fs w. apply indexed_set_pending.
  - intros w Hw. cbn [snd docs set_docs]. unfold indexed in *.
    apply andb_true_iff in Hw as [Hf Hc]. cbn [filesColl chunksColl].
    by rewrite unique_on_filter, Hf.
Qed.

Lemma run_call_indexed c w :
  indexed w = true -> indexed (fst (run_call c w)) = true.
Proof.
  intros Hw. destruct c as [cs fileID uploadDate buffer metadata|fuel fileId|sched fileId|fileId];
    cbn [run_call].
  - pose proof (PutWith_indexed cs fileID uploadDate buffer metadata w Hw) as H.
    by destruct (PutWith cs fileID uploadDate buffer metadata w) as [[s|e|p|] w'].
  - destruct (keeps_docs_Get fuel fileId w) as [Hf Hc]. by apply (indexed_docs w).
  - destruct (keeps_docs_FastGet sched fileId w) as [Hf Hc]. by apply (indexed_docs w).
  - by apply Delete_indexed.
Qed.

Lemma run_indexed calls : forall w,
  indexed w = true -> indexed (fst (run calls w)) = true.
Proof.
  induction calls as [|c calls IH]; intros w Hw; [exact Hw|].
  cbn [run fst]. apply IH, run_call_indexed, Hw.
Qed.

Lemma NewFileStore_Started uri dbName collPrefix w w' :
  NewFileStore uri dbName collPrefix w = (Started, w') ->
  filesColl w' = filesColl w /\ chunksColl w' = chunksColl w
  /\ unique_on (unique_key Chunks) (chunksColl w') = true.
Proof.
  unfold NewFileStore, fate. destruct w as [fc cc ps].
  destruct ps as [|[e|] [|[e'|] [|[e''|] ps]]];
    cbn [pending set_pending filesColl chunksColl];
    try discriminate;
    destruct (unique_on (unique_key Chunks) cc) eqn:Hu; try discriminate;
    intros [= <-]; cbn; auto.
Qed.

(** A store that [NewFileStore] has opened keeps its unique indexes through
    every history of calls, whether they succeed or fail: no two manifests
    share an [_id], no two chunks share [(files_id, n)], and so every chunk
    index of every object is stored at most once. *)
Theorem store_keeps_unique_indexes uri dbName collPrefix w0 w1 calls fileID n :
  unique_on (unique_key Files) (filesColl w0) = true ->
  NewFileStore uri dbName collPrefix w0 = (Started, w1) ->
  indexed (fst (run calls w1)) = true
  /\ (chunk_count fileID n (fst (run calls w1)) <= 1)%nat.
Proof.
  intros Hfiles Hnew.
  destruct (NewFileStore_Started _ _ _ _ _ Hnew) as (Hf & Hc & Hu).
  assert (Hidx : indexed (fst (run calls w1)) = true).
  { apply run_indexed. unfold indexed. by rewrite Hf, Hfiles, Hu. }
  split; [exact Hidx|].
  apply unique_chunk_count. unfold indexed in Hidx.
  by apply andb_true_iff in Hidx as [_ H].
Qed.

Lemma store_keeps_unique_indexes_witness :
  let calls :=
    [CallPut 5 sample_id 0 sample_buffer (Some sample_metadata);
     CallPut 5 sample_id 1 sample_buffer None;
     CallDelete other_hex] in
  unique_on (unique_key Files) (filesColl empty_world) = true
  /\ NewFileStore "mongodb://localhost:27017" "testdb" "myfs." empty_world
     = (Started, empty_world)
  /\ indexed (fst (run calls empty_world)) = true
  /\ (chunk_count sample_id 1 (fst (run calls empty_world)) <= 1)%nat.
Proof.
  cbv zeta. split; [reflexivity|]. split; [reflexivity|].
  exact (store_keeps_unique_indexes "mongodb://localhost:27017" "testdb" "myfs."
           empty_world empty_world _ sample_id 1 eq_refl eq_refl).
Defined.

(** ** An object stays stored until it is deleted *)

Lemma stored_append cs fileID (buffer : bytes) metadata w w' fs ds :
  filesColl w' = filesColl w ++ fs -> chunksColl w' = chunksColl w ++ ds ->
  stored cs fileID buffer metadata w -> stored cs fileID buffer metadata w'.
Proof.
  intros Hf Hc [(doc & Hfind & Hrest) Hchunks]. split.
  - exists doc. split; [|exact Hrest]. rewrite Hf. by apply find_app_Some.
  - intros i Hi. destruct (Hchunks i Hi) as (d & Hd & Hdata).
    exists d. split; [|exact Hdata]. rewrite Hc. by apply find_app_Some.
Qed.

Lemma stored_docs cs fileID (buffer : bytes) metadata w w' :
  filesColl w' = filesColl w -> chunksColl w' = chunksColl w ->
  stored cs fileID buffer metadata w -> stored cs fileID buffer metadata w'.
Proof.
  intros Hf Hc. apply (stored_append _ _ _ _ w w' [] []); by rewrite app_nil_r.
Qed.











Lemma quiet_set_docs c ds w : pending w = [] -> pending (set_docs c ds w) = [].
Proof. by rewrite pending_set_docs. Qed.











(** ** Failures of the store *)




(** When the insert of the manifest fails, [Put] returns that error with
    all the chunks written and no manifest: the chunks are orphans, and a
    [Get] of the object's id finds nothing. *)
Theorem Put_manifest_failure cs fileID uploadDate (buffer : bytes) metadata w e :
  0 < cs -> len buffer + cs < 2 ^ 63 ->
  length fileID = 12%nat ->
  fresh fileID w = true ->
  through (Z.to_nat (num_chunks cs (len buffer))) (pending w) = true ->
  pending w !! Z.to_nat (num_chunks cs (len buffer)) = Some (Some e) ->
  exists w',
    PutWith cs fileID uploadDate buffer metadata w = (Err e, w')
    /\ filesColl w' = filesColl w
    /\ chunksColl w' = chunksColl w ++ chunk_docs cs fileID buffer
    /\ pending w' = drop (S (Z.to_nat (num_chunks cs (len buffer)))) (pending w)
    /\ (next_call_ok w' ->
        forall fuel, fst (Get fuel (Hex.encode fileID) w') = Err ErrNoDocuments).
Proof.
  intros Hcs Hov Hid Hfresh Hthr He.
  set (N := Z.to_nat (num_chunks cs (len buffer))) in *.
  assert (Hput : PutWith cs fileID uploadDate buffer metadata w
                 = (Err e,
                    {| filesColl := filesColl w;
                       chunksColl := chunksColl w ++ chunk_docs cs fileID buffer;
                       pending := drop (S N) (pending w) |})).
  { unfold PutWith. erewrite bind_ok.
    2:{ rewrite put_chunks_split, chunk_docs_from_0 by assumption.
        apply insert_chunk_docs_through; [exact Hthr|by apply fresh_free_from]. }
    fold N. rewrite <- chunk_docs_from_0.
    erewrite bind_err; [reflexivity|].
    unfold InsertOne. erewrite driver_fails.
    2:{ rewrite pending_set_docs. cbn [pending set_pending].
        apply drop_S, He. }
    reflexivity. }
  eexists. split; [exact Hput|]. repeat split.
  intros Hnext fuel.
  erewrite Get_not_found; [reflexivity|by apply ObjectIDFromHex_Hex|exact Hnext|].
  cbn [filesColl]. by apply fresh_files.
Qed.

Lemma Put_manifest_failure_witness :
  let w := set_pending [None; None; None; Some (ErrDriver 5)] empty_world in
  0 < 5 /\ len sample_buffer + 5 < 2 ^ 63
  /\ length sample_id = 12%nat /\ fresh sample_id w = true
  /\ through (Z.to_nat (num_chunks 5 (len sample_buffer))) (pending w) = true
  /\ pending w !! Z.to_nat (num_chunks 5 (len sample_buffer))
     = Some (Some (ErrDriver 5))
  /\ exists w',
       PutWith 5 sample_id 0 sample_buffer (Some sample_metadata) w
       = (Err (ErrDriver 5), w')
       /\ filesColl w' = []
       /\ length (chunksColl w') = 3%nat
       /\ fst (Get 4 sample_hex w') = Err ErrNoDocuments.
Proof.
  cbv zeta.
  set (w := set_pending [None; None; None; Some (ErrDriver 5)] empty_world).
  assert (H5 : 0 < 5) by lia.
  assert (Hov : len sample_buffer + 5 < 2 ^ 63) by (vm_compute; reflexivity).
  assert (Hthr : through (Z.to_nat (num_chunks 5 (len sample_buffer))) (pending w)
                 = true) by (vm_compute; reflexivity).
  assert (He : pending w !! Z.to_nat (num_chunks 5 (len sample_buffer))
               = Some (Some (ErrDriver 5))) by (vm_compute; reflexivity).
  split; [exact H5|]. split; [exact Hov|]. split; [reflexivity|].
  split; [reflexivity|]. split; [exact Hthr|]. split; [exact He|].
  destruct (Put_manifest_failure 5 sample_id 0 sample_buffer (Some sample_metadata)
              w (ErrDriver 5) H5 Hov eq_refl eq_refl Hthr He)
    as (w' & Hput & Hf & Hc & Hp & Hget).
  exists w'. split; [exact Hput|]. split; [exact Hf|]. split.
  - rewrite Hc. vm_compute. reflexivity.
  - apply Hget. unfold next_call_ok. rewrite Hp. vm_compute. exact I.
Defined.

Lemma FindOne_through_found c filter w (d : M) :
  next_call_ok w -> List.find (matches filter) (docs c w) = Some d ->
  FindOne c filter w = (Ok d, set_pending (tail (pending w)) w).
Proof.
  intros Hn Hf. unfold FindOne. rewrite driver_through by exact Hn.
  rewrite docs_set_pending. by rewrite Hf.
Qed.

Lemma lookup_tail {A} (l : list A) (i : nat) : tail l !! i = l !! S i.
Proof. by destruct l. Qed.

Lemma get_chunks_fetch_fails cs fileID (buffer : bytes) metadata e :
  0 < cs -> len buffer + cs < 2 ^ 63 ->
  forall (j i fuel : nat) (dst : bytes) w,
    stored cs fileID buffer metadata w ->
    (i + j < Z.to_nat (num_chunks cs (len buffer)))%nat ->
    through j (pending w) = true ->
    pending w !! j = Some (Some e) ->
    (j < fuel)%nat ->
    length dst = length buffer ->
    get_chunks fuel fileID (len buffer) cs dst (Z.of_nat i * cs) w
    = (Err e, set_pending (drop (S j) (pending w)) w).
Proof.
  intros Hcs Hov. pose proof (len_nonneg buffer) as HL.
  pose proof (num_chunks_nonneg cs _ Hcs HL) as HN.
  induction j as [|j IH]; intros i fuel dst w Hst Hij Hthr He Hfuel Hlen;
    (destruct fuel as [|fuel]; [lia|]); cbn [get_chunks].
  - assert (Hoff : Z.of_nat i * cs < len buffer) by (apply num_chunks_lt; lia).
    destruct (Z.ltb_spec (Z.of_nat i * cs) (len buffer)) as [_|]; [|lia].
    rewrite int_div_exact by lia. rewrite bind_lift_ok.
    destruct (pending w) as [|f fs] eqn:Hp; [discriminate|].
    cbn in He. injection He as ->.
    erewrite bind_err; [reflexivity|]. unfold FindOne. by apply driver_fails.
  - assert (Hoff : Z.of_nat i * cs < len buffer) by (apply num_chunks_lt; lia).
    assert (Hnext : (Z.of_nat i + 1) * cs < len buffer)
      by (apply num_chunks_lt; lia).
    destruct (Z.ltb_spec (Z.of_nat i * cs) (len buffer)) as [_|]; [|lia].
    rewrite int_div_exact by lia. rewrite bind_lift_ok.
    destruct (through_S _ _ Hthr) as [Hn Hthr'].
    destruct Hst as [Hman Hchunks].
    destruct (Hchunks i ltac:(lia)) as (doc & Hfind & Hdata).
    change [("files_id"%string, VObjectID fileID); ("n"%string, VInt64 (Z.of_nat i))]
      with (by_chunk fileID (Z.of_nat i)).
    rewrite (bind_ok _ _ _ _ _ (FindOne_through_found Chunks _ w doc Hn Hfind)).
    unfold assert_Binary. rewrite Hdata, bind_lift_ok.
    destruct (copy_at_length dst (chunk_data cs buffer i) (Z.of_nat i * cs))
      as (dst' & Hcopy & Hlen'); [unfold len in *; lia|].
    rewrite Hcopy, bind_lift_ok.
    pose proof (length_chunk_data cs buffer i Hcs) as Hcd.
    rewrite int_add_small by lia.
    replace (Z.of_nat i * cs + len (chunk_data cs buffer i))
      with (Z.of_nat (S i) * cs) by lia.
    rewrite (IH (S i) fuel dst' (set_pending (tail (pending w)) w)).
    + cbn [pending set_pending]. by rewrite drop_tail.
    + by split.
    + lia.
    + exact Hthr'.
    + cbn [pending set_pending]. by rewrite lookup_tail.
    + lia.
    + congruence.
Qed.

(** [Get] returns the first error of the store as it is and stops there: the
    error of the manifest look-up, or, for a stored object, the error of the
    fetch of chunk [j] after [j] chunks were fetched.  No later call is
    made, and no buffer is returned. *)
Theorem Get_surfaces_store_errors :
  (forall fuel fileId fileID w e fs,
      ObjectIDFromHex fileId = Ok fileID ->
      pending w = Some e :: fs ->
      Get fuel fileId w = (Err e, set_pending fs w))
  /\ (forall cs fileID (buffer : bytes) (m : M) w (j : nat) e fuel,
      0 < cs < 2 ^ 31 -> len buffer + cs < 2 ^ 63 ->
      length fileID = 12%nat ->
      stored cs fileID buffer (Some m) w ->
      (j < Z.to_nat (num_chunks cs (len buffer)))%nat ->
      through (S j) (pending w) = true ->
      pending w !! S j = Some (Some e) ->
      (j < fuel)%nat ->
      Get fuel (Hex.encode fileID) w
      = (Err e, set_pending (drop (S (S j)) (pending w)) w)).
Proof.
  split.
  - intros fuel fileId fileID w e fs Hid Hp. unfold Get.
    rewrite Hid, bind_lift_ok. erewrite bind_err; [reflexivity|].
    unfold FindOne. by apply driver_fails.
  - intros cs fileID buffer m w j e fuel Hcs Hov Hid Hst Hj Hthr He Hfuel.
    destruct (through_S _ _ Hthr) as [Hn Hthr'].
    destruct Hst as [(doc & Hfind & Hlen & Hsize & Hmeta & Hmd5) Hchunks].
    unfold Get. rewrite ObjectIDFromHex_Hex by exact Hid. rewrite bind_lift_ok.
    rewrite (bind_ok _ _ _ _ _ (FindOne_through_found Files _ w doc Hn Hfind)).
    unfold assert_int64, assert_int32, assert_M.
    rewrite Hlen, bind_lift_ok, Hsize, bind_lift_ok, Hmeta. cbn [enc_map].
    rewrite bind_lift_ok, make_bytes_len, bind_lift_ok.
    erewrite bind_err; [reflexivity|].
    pose proof (get_chunks_fetch_fails cs fileID buffer (Some m) e ltac:(lia) Hov
                  j 0 fuel (replicate (length buffer) x00)
                  (set_pending (tail (pending w)) w)) as Hloop.
    change (Z.of_nat 0 * cs) with 0 in Hloop. rewrite Hloop.
    + cbn [pending set_pending]. by rewrite drop_tail.
    + split; [exists doc; auto|exact Hchunks].
    + lia.
    + exact Hthr'.
    + cbn [pending set_pending]. by rewrite lookup_tail.
    + exact Hfuel.
    + apply length_replicate.
Qed.

Lemma sample_world_stored :
  stored 5 sample_id sample_buffer (Some sample_metadata) sample_world.
Proof.
  assert (Hw : sample_world
               = after_put 5 sample_id 0 sample_buffer (Some sample_metadata)
                   empty_world) by (vm_compute; reflexivity).
  rewrite Hw. apply after_put_stored; [lia|reflexivity].
Qed.

Lemma Get_surfaces_store_errors_witness :
  let w := set_pending [None; None; Some (ErrDriver 9); None] sample_world in
  (ObjectIDFromHex sample_hex = Ok sample_id
   /\ Get 4 sample_hex (set_pending [Some (ErrDriver 1)] sample_world)
      = (Err (ErrDriver 1), set_pending [] sample_world))
  /\ (0 < 5 < 2 ^ 31 /\ len sample_buffer + 5 < 2 ^ 63
      /\ length sample_id = 12%nat
      /\ stored 5 sample_id sample_buffer (Some sample_metadata) w
      /\ (1 < Z.to_nat (num_chunks 5 (len sample_buffer)))%nat
      /\ through 2 (pending w) = true
      /\ pending w !! 2%nat = Some (Some (ErrDriver 9))
      /\ Get 4 sample_hex w = (Err (ErrDriver 9), set_pending [None] w)).
Proof.
  cbv zeta. destruct Get_surfaces_store_errors as [Hmanifest Hchunk].
  split.
  - split; [reflexivity|].
    exact (Hmanifest 4%nat sample_hex sample_id
             (set_pending [Some (ErrDriver 1)] sample_world) (ErrDriver 1) []
             eq_refl eq_refl).
  - assert (H5 : 0 < 5 < 2 ^ 31) by lia.
    assert (Hov : len sample_buffer + 5 < 2 ^ 63) by (vm_compute; reflexivity).
    assert (Hst : stored 5 sample_id sample_buffer (Some sample_metadata)
                    (set_pending [None; None; Some (ErrDriver 9); None] sample_world))
      by (apply (stored_docs _ _ _ _ sample_world); [reflexivity..|];
          exact sample_world_stored).
    assert (Hj : (1 < Z.to_nat (num_chunks 5 (len sample_buffer)))%nat)
      by (vm_compute; lia).
    split; [exact H5|]. split; [exact Hov|]. split; [reflexivity|].
    split; [exact Hst|]. split; [exact Hj|]. split; [reflexivity|].
    split; [reflexivity|].
    exact (Hchunk 5 sample_id sample_buffer sample_metadata _ 1%nat (ErrDriver 9)
             4%nat H5 Hov eq_refl Hst Hj eq_refl eq_refl ltac:(lia)).
Defined.

(** ** Deletion *)

(** After a [Delete] whose calls go through, the object is gone: no
    manifest and no chunk of it is left, and [Get] and [FastGet] of its id
    answer with the store's not-found error. *)
Theorem Delete_then_reads_find_nothing fileID w fuel (sched : list Z) :
  unique_on (unique_key Files) (filesColl w) = true ->
  length fileID = 12%nat ->
  pending w = [] ->
  let r := Delete (Hex.encode fileID) w in
  fst r = Ok tt
  /\ fresh fileID (snd r) = true
  /\ Get fuel (Hex.encode fileID) (snd r) = (Err ErrNoDocuments, snd r)
  /\ FastGet sched (Hex.encode fileID) (snd r) = (Err ErrNoDocuments, snd r).
Proof.
  intros Hu Hid Hq r.
  pose proof (ObjectIDFromHex_Hex fileID Hid) as Hhex.
  pose proof (Delete_quiet _ _ w Hhex Hq) as Hdel.
  pose proof (Delete_fresh _ _ _ _ Hu Hhex Hdel) as Hfresh.
  subst r. rewrite Hdel. cbn [fst snd].
  split; [reflexivity|]. split; [exact Hfresh|].
  pose proof (fresh_files _ _ Hfresh) as Hnone.
  split.
  - rewrite (Get_not_found fuel _ fileID); [reflexivity|exact Hhex|exact I|exact Hnone].
  - rewrite (FastGet_not_found sched _ fileID);
      [reflexivity|exact Hhex|exact I|exact Hnone].
Qed.

Lemma Delete_then_reads_find_nothing_witness :
  unique_on (unique_key Files) (filesColl sample_world) = true
  /\ length sample_id = 12%nat
  /\ pending sample_world = []
  /\ fst (Get 4 sample_hex sample_world) = Ok (sample_buffer, sample_metadata)
  /\ fst (Get 4 sample_hex (snd (Delete sample_hex sample_world)))
     = Err ErrNoDocuments.
Proof.
  assert (Hu : unique_on (unique_key Files) (filesColl sample_world) = true)
    by (vm_compute; reflexivity).
  split; [exact Hu|]. split; [reflexivity|]. split; [reflexivity|].
  split; [vm_compute; reflexivity|].
  destruct (Delete_then_reads_find_nothing sample_id sample_world 4 [] Hu
              eq_refl eq_refl) as (_ & _ & Hget & _).
  exact (f_equal fst Hget).
Defined.
